(** * smoker: the plugin manager ([smoker/server/pluginmanager.py])

    A shallow embedding of [PluginManager] and of the module-level
    semaphore, together with the properties of the manager stated in the
    specification.

    Python dictionaries are finite maps ([gmap]); iterating a dictionary
    ([iteritems], [itervalues], [keys]) walks [map_to_list]: one fixed
    order per dictionary, which stands for the order that CPython's hashing
    gives and need not be the same.  Values are the values of a
    configuration file without floating-point numbers, and the options of
    every configured plugin are a dictionary.  Objects that the code shares
    by reference (the [Plugin] instances held both by the registry and by
    the process ledger) live in an object store addressed by position; the
    class attributes [plugins] and [processes] form one record that every
    manager instance reads and writes.  Calls to the logger are left out,
    except in [stop], where a claim is about them. *)

From Stdlib Require Import ZArith QArith.
From stdpp Require Import gmap strings list fin_maps.

Set Warnings "-register-all".
Local Open Scope Z_scope.
Local Open Scope string_scope.
Local Open Scope list_scope.

(** ** Python values *)

Inductive value : Type :=
  | VNone
  | VBool (b : bool)
  | VInt (n : Z)
  | VStr (s : string)
  | VList (l : list value)
  | VDict (d : gmap string value).

(** A dictionary with string keys: options, templates, parameters. *)
Abbreviation dict := (gmap string value).

(** [bool] is a subclass of [int] in Python: [True == 1], [False == 0]. *)
Definition as_number (v : value) : option Z :=
  match v with
  | VBool b => Some (if b then 1 else 0)
  | VInt n => Some n
  | _ => None
  end.

(** Python's [==] on configuration values. *)
Fixpoint py_eq (v w : value) {struct v} : bool :=
  match v, w with
  | VNone, VNone => true
  | VStr s, VStr t => bool_decide (s = t)
  | VList l, VList m =>
      (fix go (l m : list value) : bool :=
         match l, m with
         | [], [] => true
         | x :: l', y :: m' => py_eq x y && go l' m'
         | _, _ => false
         end) l m
  | VDict d, VDict e =>
      bool_decide (size d = size e) &&
      map_fold (λ k x acc,
                acc && match e !! k with Some y => py_eq x y | None => false end)
               true d
  | (VBool _ | VInt _), (VBool _ | VInt _) =>
      bool_decide (as_number v = as_number w)
  | _, _ => false
  end.

(** ** Exceptions and results *)

Inductive exn : Type :=
  | NoTemplatesConfigured
  | TemplateNotFound
  | NoActionsConfigured
  | ActionNotFound
  | BasePluginTemplateNotFound
  | NoRunningPlugins
  | NoSuchPlugin
  | NoPluginsFound
  | KeyError
  | TypeError
  | IndexError
  | AttributeError
  | AssertionError
  | OtherException.

Inductive result (A : Type) : Type :=
  | Ok (a : A)
  | Raise (e : exn).
Arguments Ok {A} a.
Arguments Raise {A} e.

#[global] Instance result_ret : MRet result := λ A a, Ok a.
#[global] Instance result_bind : MBind result :=
  λ A B f r, match r with Ok a => f a | Raise e => Raise e end.

(** [d[k]] for a dictionary whose keys are strings: lists and dictionaries
    are unhashable, every other key that is not a string is simply absent. *)
Definition getitem {A : Type} (d : gmap string A) (k : value) : result A :=
  match k with
  | VStr s => match d !! s with Some a => Ok a | None => Raise KeyError end
  | VList _ | VDict _ => Raise TypeError
  | VNone | VBool _ | VInt _ => Raise KeyError
  end.

(** ** Plugins, the shared class state and manager instances *)

(** Modelled from the spec: the [Plugin] class of [smoker.server.plugins],
    which is not part of the sources at hand.  A plugin has a name, its
    resolved parameter mapping, and the externally writable [force] flag
    and [forced_result] slot ([None] is Python's [None], unset). *)
Record Plugin : Type := mkPlugin {
  name : string;
  params : dict;
  force : bool;
  forced_result : option value
}.

(** A process is the dictionary [{'plugins': plugins_list}]; the list holds
    references to plugin objects. *)
Record Process : Type := mkProcess { proc_plugins : list nat }.

(** The class attributes of [PluginManager]: [plugins] and [processes] are
    created once, in the class body, and every instance reaches them through
    [self].  [heap] is the store of plugin objects; a reference is a
    position in it. *)
Record Shared : Type := mkShared {
  heap : list Plugin;
  plugins : gmap string nat;
  processes : list (option Process)
}.

(** The state left by the class body: an empty registry and a ledger whose
    index 0 is filled with [None]. *)
Definition class_body : Shared :=
  {| heap := []; plugins := ∅; processes := [None] |}.

(** The instance attributes set by [__init__]. *)
Record PluginManager : Type := mkManager {
  conf_plugins : option (gmap string dict);
  conf_actions : option dict;
  conf_templates : option (gmap string dict);
  stopping : bool
}.

Definition set_conf_plugins (self : PluginManager) (c : gmap string dict)
  : PluginManager :=
  {| conf_plugins := Some c;
     conf_actions := conf_actions self;
     conf_templates := conf_templates self;
     stopping := stopping self |}.

(** ** Templates and actions *)

Definition get_template (self : PluginManager) (name : value) : result dict :=
  match conf_templates self with
  | None => Raise NoTemplatesConfigured
  | Some templates =>
      match getitem templates name with
      | Raise KeyError => Raise TemplateNotFound
      | r => r
      end
  end.

Definition get_action (self : PluginManager) (name : value) : result value :=
  match conf_actions self with
  | None => Raise NoActionsConfigured
  | Some actions =>
      match getitem actions name with
      | Raise KeyError => Raise ActionNotFound
      | r => r
      end
  end.

(** [dict(base, **over)]: a copy of [base] updated with [over]. *)
Definition dict_update (base over : dict) : dict := over ∪ base.

(** Modelled from the spec: the two ways in which the constructor of a
    plugin fails, a parameter-validation error and any other construction
    error, and the exceptions that [load_plugins] catches for them. *)
Inductive construction_error : Type :=
  | InvalidParameters
  | BrokenPlugin.

Definition construction_exn (e : construction_error) : exn :=
  match e with
  | InvalidParameters => AssertionError
  | BrokenPlugin => OtherException
  end.

Section Loading.

(** Modelled from the spec: the constructor [Plugin(manager, name, params,
    semaphore)] of the absent [Plugin] class.  It may reject its arguments,
    by a failed parameter validation (an AssertionError) or by any other
    construction error; [Plugin_check] says which, if any.  An accepted
    plugin keeps the merged parameters and starts unforced. *)
Variable Plugin_check : string → dict → option construction_error.

Definition Plugin_init (plugin : string) (p : dict) : result Plugin :=
  match Plugin_check plugin p with
  | Some e => Raise (construction_exn e)
  | None =>
      Ok {| name := plugin; params := p; force := false; forced_result := None |}
  end.

(** The first part of [load_plugin], up to [params = dict(template,
    **options)].  The options dictionary is updated in place when it names an
    action, so it is returned too. *)
Definition load_plugin_params (self : PluginManager) (options : dict)
  : dict * result dict :=
  let template :=
    match get_template self (VStr "BasePlugin") with
    | Ok t => t
    | Raise _ => ∅
    end in
  let template' :=
    match options !! "Template" with
    | Some tname =>
        template_custom ← get_template self tname;
        mret (dict_update template template_custom)
    | None => mret template
    end in
  match template' with
  | Raise e => (options, Raise e)
  | Ok template =>
      let options' :=
        match options !! "Action" with
        | Some aname =>
            action ← get_action self aname;
            mret (<["Action" := action]> options)
        | None => mret options
        end in
      match options' with
      | Raise e => (options, Raise e)
      | Ok options => (options, Ok (dict_update template options))
      end
  end.

Definition load_plugin (self : PluginManager) (plugin : string) (options : dict)
  : dict * result Plugin :=
  let '(options, p) := load_plugin_params self options in
  (options, p ≫= Plugin_init plugin).

(** [options.has_key('Enabled') and options['Enabled'] == False] *)
Definition disabled (options : dict) : bool :=
  match options !! "Enabled" with
  | Some v => py_eq v (VBool false)
  | None => false
  end.

(** One round of the [for] loop of [load_plugins].  Every exception of
    [load_plugin] is caught by one of the handlers, and each handler goes on
    with the next entry.  (The handlers of the two template errors format
    [options['Template']]; these errors come from the lookup of that very
    entry, so the key is there.) *)
Definition load_entry (self : PluginManager)
    (st : Shared * gmap string dict) (entry : string * dict)
  : Shared * gmap string dict :=
  let '(cls, conf) := st in
  let '(plugin, options) := entry in
  if disabled options then (cls, conf)
  else
    match load_plugin self plugin options with
    | (options, Ok obj) =>
        ({| heap := heap cls ++ [obj];
            plugins := <[plugin := length (heap cls)]> (plugins cls);
            processes := processes cls |},
         <[plugin := options]> conf)
    | (options, Raise _) => (cls, <[plugin := options]> conf)
    end.

Definition load_plugins (cls : Shared) (self : PluginManager)
  : Shared * PluginManager * result unit :=
  match get_template self (VStr "BasePlugin") with
  | Raise TemplateNotFound | Raise NoTemplatesConfigured =>
      (cls, self, Raise BasePluginTemplateNotFound)
  | Raise e => (cls, self, Raise e)
  | Ok _ =>
      match conf_plugins self with
      | None => (cls, self, Raise AttributeError)
      | Some conf =>
          let '(cls, conf) :=
            foldl (load_entry self) (cls, conf) (map_to_list conf) in
          let self := set_conf_plugins self conf in
          if bool_decide (size (plugins cls) = 0%nat)
          then (cls, self, Raise NoRunningPlugins)
          else (cls, self, Ok ())
      end
  end.

(** [PluginManager(plugins, actions, templates)]: the class state is taken
    as it is, nothing in the constructor assigns [plugins] or [processes]. *)
Definition init (cls : Shared) (plugins : option (gmap string dict))
    (actions : option dict) (templates : option (gmap string dict))
  : Shared * result PluginManager :=
  let self :=
    {| conf_plugins := plugins; conf_actions := actions;
       conf_templates := templates; stopping := false |} in
  match load_plugins cls self with
  | (cls, self, Ok _) => (cls, Ok self)
  | (cls, _, Raise e) => (cls, Raise e)
  end.

End Loading.

(** ** Queries on the registry *)

(** What [get_plugins] returns: a fresh list of plugin objects when it is
    given a filter, the registry dictionary itself otherwise. *)
Inductive plugins_result : Type :=
  | PluginList (l : list nat)
  | PluginDict (d : gmap string nat).

(** The test of the filter loop: [plugin.params.has_key(key)] and
    [plugin.params[key] == value]. *)
Definition param_matches (key : string) (value : value) (p : Plugin) : bool :=
  match params p !! key with
  | Some v => py_eq v value
  | None => false
  end.

Definition ref_matches (cls : Shared) (key : string) (value : value)
    (r : nat) : bool :=
  match heap cls !! r with
  | Some p => param_matches key value p
  | None => false
  end.

Definition get_plugins (cls : Shared) (filter : option dict) : plugins_result :=
  match map_to_list <$> filter with
  | Some ((key, value) :: _) =>
      PluginList
        (List.filter (ref_matches cls key value)
                     (snd <$> map_to_list (plugins cls)))
  | Some [] | None => PluginDict (plugins cls)
  end.

Definition get_plugin (cls : Shared) (name : string) : result nat :=
  match plugins cls !! name with
  | Some r => Ok r
  | None => Raise NoSuchPlugin
  end.

(** ** The process ledger *)

(** [plugin.force = True; plugin.forced_result = None] *)
Definition force_run (p : Plugin) : Plugin :=
  {| name := name p; params := params p; force := true; forced_result := None |}.

(** The list built by the first half of [add_process]: the named plugins,
    then the plugins matching the filter.  [names] is the argument
    [plugins] of the source.  [get_plugins] is only called with a filter
    that is true, for which it returns a list ([get_plugins_filter_list]). *)
Definition collect_plugins (cls : Shared) (names : option (list string))
    (filter : option dict) : result (list nat) :=
  named ←
    match names with
    | Some (n :: ns) => mapM (get_plugin cls) (n :: ns)
    | Some [] | None => mret []
    end;
  mret (named ++
        match map_to_list <$> filter with
        | Some (_ :: _) =>
            match get_plugins cls filter with
            | PluginList l => l
            | PluginDict _ => []
            end
        | Some [] | None => []
        end).

Definition add_process (cls : Shared) (names : option (list string))
    (filter : option dict) : Shared * result Z :=
  match collect_plugins cls names filter with
  | Raise e => (cls, Raise e)
  | Ok plugins_list =>
      if bool_decide (length plugins_list = 0%nat)
      then (cls, Raise NoPluginsFound)
      else
        let process := {| proc_plugins := plugins_list |} in
        let processes' := processes cls ++ [Some process] in
        let id := Z.of_nat (length processes') - 1 in
        ({| heap := foldl (λ h r, alter force_run r h) (heap cls) plugins_list;
            plugins := plugins cls;
            processes := processes' |},
         Ok id)
  end.

(** [self.processes[id]] with Python's list indexing: a negative index
    counts from the end, an index outside [-len, len) raises. *)
Definition get_process (cls : Shared) (id : Z) : result (option Process) :=
  let len := Z.of_nat (length (processes cls)) in
  let i := if bool_decide (id < 0) then id + len else id in
  if bool_decide (0 ≤ i < len)
  then match processes cls !! Z.to_nat i with
       | Some entry => Ok entry
       | None => Raise IndexError
       end
  else Raise IndexError.

(** ** Starting and stopping *)

(** What the manager does to the outside world while it starts and stops
    plugins: calls to the plugin objects, the one progress line of [stop]
    (the count and the names it formats), and [time.sleep]. *)
Inductive event : Type :=
  | EvStart (r : nat)
  | EvTerminate (r : nat)
  | EvInfo (count : nat) (names : list string)
  | EvSleep (seconds : Q).

Definition start (cls : Shared) : list event :=
  (λ item, EvStart item.2) <$> map_to_list (plugins cls).

Section Stopping.

(** The answers of [plugin.is_alive()]: the plugins run on their own, so
    the answer given in the [poll]-th round of the waiting loop to the
    plugin object [r] comes from outside. *)
Variable is_alive : nat → nat → bool.

(** One pass of the inner [for] loop: the names of the plugins that answer
    that they are alive. *)
Definition alive_names (cls : Shared) (poll : nat) : list string :=
  fst <$> List.filter (λ item, is_alive poll item.2) (map_to_list (plugins cls)).

(** The [while plugins_left] loop.  [fuel] bounds the number of rounds;
    [None] means that the loop is still running when the fuel is spent. *)
Fixpoint wait_plugins (cls : Shared) (fuel poll : nat)
    (plugins_left : list string) (plugins_left_cnt : nat) {struct fuel}
  : option (list event) :=
  match plugins_left with
  | [] => Some []
  | _ :: _ =>
      match fuel with
      | O => None
      | S fuel =>
          let plugins_left := alive_names cls poll in
          match plugins_left with
          | [] => wait_plugins cls fuel (S poll) plugins_left plugins_left_cnt
          | _ :: _ =>
              let info :=
                if bool_decide (length plugins_left ≠ plugins_left_cnt)
                then [EvInfo (length plugins_left) plugins_left]
                else [] in
              rest ← wait_plugins cls fuel (S poll) plugins_left
                                  (length plugins_left);
              Some (info ++ [EvSleep (1 # 2)] ++ rest)
          end
      end
  end.

Definition stop (cls : Shared) (self : PluginManager) (blocking : bool)
    (fuel : nat) : PluginManager * option (list event) :=
  let self :=
    {| conf_plugins := conf_plugins self; conf_actions := conf_actions self;
       conf_templates := conf_templates self; stopping := true |} in
  let terminated := (λ item, EvTerminate item.2) <$> map_to_list (plugins cls) in
  if blocking
  then
    let plugins_left := fst <$> map_to_list (plugins cls) in
    (self,
     rest ← wait_plugins cls fuel 0 plugins_left (length plugins_left);
     Some (terminated ++ rest))
  else (self, Some terminated).

(** The requests for termination that open every [stop]. *)
Definition terminations (cls : Shared) : list event :=
  (λ item, EvTerminate item.2) <$> map_to_list (plugins cls).

(** Every registered plugin answers, in round [poll], that it is not
    alive. *)
Definition all_stopped (cls : Shared) (poll : nat) : Prop :=
  ∀ n r, plugins cls !! n = Some r → is_alive poll r = false.

(** The waiting of [stop] as the specification words it: a round that finds
    plugins alive writes a progress line only if their number is not the
    number [previous] of the round before, and then sleeps for 0.5;
    [rounds_spec previous poll n] is what [n] such rounds from round [poll]
    on leave behind. *)
Fixpoint rounds_spec (cls : Shared) (previous poll n : nat) : list event :=
  match n with
  | O => []
  | S n =>
      let names := alive_names cls poll in
      (if bool_decide (length names = previous) then []
       else [EvInfo (length names) names])
      ++ EvSleep (1 # 2) :: rounds_spec cls (length names) (S poll) n
  end.


End Stopping.

Definition is_sleep (e : event) : bool :=
  match e with EvSleep _ => true | _ => false end.

(** ** The semaphore *)

Module Gate.

(** [semaphore_count = int(os.sysconf('SC_NPROCESSORS_ONLN')) + 2]; the one
    module-level [semaphore] is created with this value and handed to every
    [Plugin] that [load_plugin] constructs. *)
Definition semaphore_count (nproc : nat) : nat := nproc + 2.

(** Modelled from the spec: the run loop of the absent [Plugin] class.  A
    plugin acquires one unit of the semaphore immediately before it invokes
    its probe and releases it immediately after; a forced run goes through
    the same gate. *)
Inductive phase : Type := Idle | Queued | Probing.

Record task : Type := mkTask { task_phase : phase; task_force : bool }.

Record system : Type := mkSystem { semaphore : nat; tasks : list task }.

Definition set_task (s : system) (i : nat) (t : task) (sem : nat) : system :=
  {| semaphore := sem; tasks := <[i := t]> (tasks s) |}.

(** The interleavings of the plugins' run loops and of the manager:
    [add_process] forces a plugin, a plugin becomes ready to run (on its own
    schedule or because it is forced), takes a unit of the semaphore when
    one is left, and gives it back when its probe is over. *)
Inductive step : system → system → Prop :=
  | step_force s i t :
      tasks s !! i = Some t →
      step s (set_task s i (mkTask (task_phase t) true) (semaphore s))
  | step_ready s i t :
      tasks s !! i = Some t → task_phase t = Idle →
      step s (set_task s i (mkTask Queued (task_force t)) (semaphore s))
  | step_acquire s i t n :
      tasks s !! i = Some t → task_phase t = Queued → semaphore s = S n →
      step s (set_task s i (mkTask Probing (task_force t)) n)
  | step_release s i t :
      tasks s !! i = Some t → task_phase t = Probing →
      step s (set_task s i (mkTask Idle false) (S (semaphore s))).

Definition probing (t : task) : bool :=
  match task_phase t with Probing => true | _ => false end.

(** The number of probe executions in progress. *)
Definition in_progress (s : system) : nat :=
  length (List.filter probing (tasks s)).

(** One idle plugin per entry of [forced] (its force flag), and the
    semaphore as the module creates it on a machine with [nproc] processors
    online. *)
Definition boot (nproc : nat) (forced : list bool) : system :=
  {| semaphore := semaphore_count nproc;
     tasks := (λ f, mkTask Idle f) <$> forced |}.

(** What a task counts for among the probes in progress. *)
Definition weight (t : task) : nat := if probing t then 1%nat else 0%nat.

(** The units left in the semaphore and the probes in progress add up to
    [capacity]. *)
Definition balanced (capacity : nat) (s : system) : Prop :=
  (in_progress s + semaphore s = capacity)%nat.

(** One processor, four plugins: three of them are through the gate and
    the fourth, though forced, is kept waiting. *)
Definition crowded : system :=
  {| semaphore := 0;
     tasks := [mkTask Probing false; mkTask Probing false;
               mkTask Probing true; mkTask Queued true] |}.

End Gate.

(** ** Well-formed class states *)

(** References are positions of the object store: every reference held by
    the registry or by a process points to an object, no object is
    registered under two names, and index 0 of the ledger is the [None] put
    there by the class body. *)
Record wf (cls : Shared) : Prop := mkWf {
  wf_registry : ∀ n r, plugins cls !! n = Some r → (r < length (heap cls))%nat;
  wf_distinct : ∀ n1 n2 r,
    plugins cls !! n1 = Some r → plugins cls !! n2 = Some r → n1 = n2;
  wf_sentinel : processes cls !! 0%nat = Some None;
  wf_ledger : ∀ i proc r,
    processes cls !! i = Some (Some proc) → r ∈ proc_plugins proc →
    (r < length (heap cls))%nat
}.

(** How a class state has grown through loading: the ledger is the same,
    the objects that were there are there, and every name that was
    registered is registered. *)
Record grown (cls cls' : Shared) : Prop := mkGrown {
  grown_processes : processes cls' = processes cls;
  grown_heap : ∃ new, heap cls' = heap cls ++ new;
  grown_plugins : ∀ n, is_Some (plugins cls !! n) → is_Some (plugins cls' !! n)
}.

(** The template named by the options, if they name one, is found. *)
Definition template_found (self : PluginManager) (options : dict) : Prop :=
  match options !! "Template" with
  | None => True
  | Some tname => ∃ t, get_template self tname = Ok t
  end.

(** ** Sessions *)

(** The life of the ledger: successive calls of [add_process], the handles
    of the successful ones in order, with anything in between that leaves
    the ledger alone (failed calls, the plugins' own loops writing to their
    objects, further loading). *)
Inductive session : Shared → list Z → Shared → Prop :=
  | session_done cls : session cls [] cls
  | session_add cls names filter cls1 id ids cls2 :
      add_process cls names filter = (cls1, Ok id) →
      session cls1 ids cls2 →
      session cls (id :: ids) cls2
  | session_other cls cls1 ids cls2 :
      processes cls1 = processes cls →
      session cls1 ids cls2 →
      session cls ids cls2.

(** ** Sample configurations *)

Module Sample.

(** A constructor that accepts every plugin. *)
Definition accept_all : string → dict → option construction_error := λ _ _, None.

(** The merge example: BasePlugin = {a:1, b:2}, T = {b:3, c:4}. *)
Definition templates : gmap string dict :=
  {[ "BasePlugin" := {[ "a" := VInt 1; "b" := VInt 2 ]};
     "T" := {[ "b" := VInt 3; "c" := VInt 4 ]} ]}.

(** Plugin options {c:5, d:6} with Template = T. *)
Definition options : dict :=
  {[ "c" := VInt 5; "d" := VInt 6; "Template" := VStr "T" ]}.

Definition manager : PluginManager :=
  {| conf_plugins := Some {[ "probe" := options ]};
     conf_actions := None;
     conf_templates := Some templates;
     stopping := false |}.

(** A second entry, switched off. *)
Definition switched_off : dict :=
  {[ "Enabled" := VBool false; "Action" := VStr "ping" ]}.

Definition two_entries : PluginManager :=
  {| conf_plugins := Some {[ "probe" := options; "spare" := switched_off ]};
     conf_actions := Some {[ "ping" := VDict {[ "Command" := VStr "ping -c1" ]} ]};
     conf_templates := Some templates;
     stopping := false |}.

(** The class state after the first manager is constructed from
    [manager]'s configuration, and after its first forced run. *)
Definition loaded : Shared :=
  (init accept_all class_body (conf_plugins manager) (conf_actions manager)
        (conf_templates manager)).1.

Definition forced_once : Shared :=
  (add_process loaded (Some ["probe"]) None).1.

(** Two plugins, and answers to [is_alive] by which the second object
    stops after the first round and the first after the second round. *)
Definition pair : Shared :=
  (init accept_all class_body
        (Some {[ "probe" := options; "extra" := (∅ : dict) ]}) None
        (Some templates)).1.

Definition winding_down (poll r : nat) : bool :=
  match r with
  | O => bool_decide (poll < 2)%nat
  | _ => bool_decide (poll < 1)%nat
  end.

(** {a:1, b:3, c:5, d:6} *)
Definition merged_keys : dict :=
  {[ "a" := VInt 1; "b" := VInt 3; "c" := VInt 5; "d" := VInt 6 ]}.

End Sample.

(** * Properties *)

(** ** Results *)

Lemma result_bind_Ok {A B} (f : A → result B) (r : result A) (b : B) :
  r ≫= f = Ok b → ∃ a, r = Ok a ∧ f a = Ok b.
Proof. destruct r as [a|e]; simpl; [eauto | discriminate]. Qed.

(** ** Resolving templates *)

Lemma get_template_Some self templates tname t :
  conf_templates self = Some templates →
  templates !! tname = Some t →
  get_template self (VStr tname) = Ok t.
Proof. intros Hc Ht. unfold get_template. rewrite Hc. simpl. by rewrite Ht. Qed.

Lemma get_template_missing self :
  (conf_templates self = None ∨
   ∃ templates, conf_templates self = Some templates
                ∧ templates !! "BasePlugin" = None) →
  get_template self (VStr "BasePlugin") = Raise NoTemplatesConfigured
  ∨ get_template self (VStr "BasePlugin") = Raise TemplateNotFound.
Proof.
  unfold get_template. intros [-> | (ts & -> & Hb)]; [by left |].
  right. simpl. by rewrite Hb.
Qed.

(** C1, as stated, fails on its own example: the options dictionary is
    merged whole, so the [Template] entry that names the template is itself
    one of the resolved parameters. *)
Lemma C1_example_has_template_key :
  (load_plugin_params Sample.manager Sample.options).2
  = Ok (<["Template" := VStr "T"]> Sample.merged_keys)
  ∧ (load_plugin_params Sample.manager Sample.options).2
    ≠ Ok Sample.merged_keys.
Proof.
  assert (H : (load_plugin_params Sample.manager Sample.options).2
              = Ok (<["Template" := VStr "T"]> Sample.merged_keys)).
  { by vm_compute. }
  split; [exact H |].
  rewrite H. intros E.
  assert (E' : <["Template" := VStr "T"]> Sample.merged_keys !! "Template"
               = Sample.merged_keys !! "Template") by congruence.
  vm_compute in E'. discriminate.
Qed.

Lemma dict_update_lookup (base over : dict) k :
  dict_update base over !! k
  = match over !! k with Some v => Some v | None => base !! k end.
Proof.
  unfold dict_update. rewrite lookup_union.
  destruct (over !! k), (base !! k); reflexivity.
Qed.

(** C1 (amended).  For a plugin whose options name a configured template,
    the resolved parameters are, key by key, the plugin's own options
    (the [Template] entry included, and the [Action] entry, if there is one,
    replaced by the parameters of the action it names), then the named
    template, then BasePlugin; the plugin is constructed with exactly this
    mapping. *)
Theorem C1_merge_precedence
    (self : PluginManager) (templates : gmap string dict)
    (base custom options options' : dict) (tname : string) :
  conf_templates self = Some templates →
  templates !! "BasePlugin" = Some base →
  options !! "Template" = Some (VStr tname) →
  templates !! tname = Some custom →
  match options !! "Action" with
  | None => options' = options
  | Some aname =>
      ∃ a, get_action self aname = Ok a ∧ options' = <["Action" := a]> options
  end →
  ∃ p : dict,
    load_plugin_params self options = (options', Ok p)
    ∧ (∀ k, p !! k =
            match options' !! k with
            | Some v => Some v
            | None =>
                match custom !! k with
                | Some v => Some v
                | None => base !! k
                end
            end)
    ∧ (∀ k, k ≠ "Action" → options' !! k = options !! k)
    ∧ (∀ Plugin_check plugin,
         Plugin_check plugin p = None →
         load_plugin Plugin_check self plugin options
         = (options', Ok (mkPlugin plugin p false None))).
Proof.
  intros Hc Hb Ht Hcu Hact.
  exists (dict_update (dict_update base custom) options').
  assert (Hload : load_plugin_params self options
                  = (options', Ok (dict_update (dict_update base custom) options'))).
  { unfold load_plugin_params.
    rewrite (get_template_Some _ _ _ _ Hc Hb), Ht.
    rewrite (get_template_Some _ _ _ _ Hc Hcu). simpl.
    destruct (options !! "Action") as [aname|].
    - destruct Hact as (a & -> & ->). reflexivity.
    - subst options'. reflexivity. }
  split; [exact Hload |]. split; [| split].
  - intros k. rewrite !dict_update_lookup. reflexivity.
  - intros k Hk. destruct (options !! "Action") as [aname|].
    + destruct Hact as (a & _ & ->). by rewrite lookup_insert_ne.
    + by subst.
  - intros chk plugin Hchk. unfold load_plugin. rewrite Hload. simpl.
    unfold Plugin_init. by rewrite Hchk.
Qed.

Lemma C1_merge_precedence_witness :
  ∃ p : dict,
    load_plugin_params Sample.manager Sample.options = (Sample.options, Ok p)
    ∧ (∀ k, p !! k =
            match Sample.options !! k with
            | Some v => Some v
            | None =>
                match ({[ "b" := VInt 3; "c" := VInt 4 ]} : dict) !! k with
                | Some v => Some v
                | None => ({[ "a" := VInt 1; "b" := VInt 2 ]} : dict) !! k
                end
            end)
    ∧ (∀ k, k ≠ "Action" → Sample.options !! k = Sample.options !! k)
    ∧ (∀ Plugin_check plugin,
         Plugin_check plugin p = None →
         load_plugin Plugin_check Sample.manager plugin Sample.options
         = (Sample.options, Ok (mkPlugin plugin p false None))).
Proof.
  apply (C1_merge_precedence Sample.manager Sample.templates
           {[ "a" := VInt 1; "b" := VInt 2 ]} {[ "b" := VInt 3; "c" := VInt 4 ]}
           Sample.options Sample.options "T");
    reflexivity.
Defined.

(** ** Loading plugins *)

Section LoadingFacts.

Variable Plugin_check : string → dict → option construction_error.

(** C4.  When no templates are configured, or the templates have no
    BasePlugin entry, constructing a manager raises
    BasePluginTemplateNotFound and leaves the class state as it was: no
    plugin entry is looked at, nothing is registered. *)
Theorem C4_missing_base_template_is_fatal
    (cls : Shared) (plugins : option (gmap string dict))
    (actions : option dict) (templates : option (gmap string dict)) :
  (templates = None ∨
   ∃ ts, templates = Some ts ∧ ts !! "BasePlugin" = None) →
  init Plugin_check cls plugins actions templates
  = (cls, Raise BasePluginTemplateNotFound).
Proof.
  intros H. unfold init, load_plugins.
  set (self := {| conf_plugins := plugins; conf_actions := actions;
                  conf_templates := templates; stopping := false |}).
  destruct (get_template_missing self H) as [-> | ->]; reflexivity.
Qed.

(** What one constructed plugin looks like. *)
Lemma Plugin_init_Ok plugin p obj :
  Plugin_init Plugin_check plugin p = Ok obj →
  name obj = plugin ∧ params obj = p ∧ force obj = false
  ∧ forced_result obj = None.
Proof.
  unfold Plugin_init. destruct (Plugin_check plugin p); [discriminate |].
  intros [= <-]. auto.
Qed.

Lemma load_plugin_name self plugin options options' obj :
  load_plugin Plugin_check self plugin options = (options', Ok obj) →
  name obj = plugin.
Proof.
  unfold load_plugin. destruct (load_plugin_params self options) as [o [p|e]];
    simpl; intros E; injection E as _ H; [| discriminate].
  by apply Plugin_init_Ok in H as (? & _).
Qed.

(** One round of the loop: a disabled entry changes nothing; any other
    entry has its options written back, and either leaves the class state
    alone or stores one new object and registers it under the entry's
    name. *)
Lemma load_entry_cases self cls conf plugin options :
  let st := load_entry Plugin_check self (cls, conf) (plugin, options) in
  (disabled options = true ∧ st = (cls, conf))
  ∨ (disabled options = false
     ∧ (∃ o, st.2 = <[plugin := o]> conf)
     ∧ (st.1 = cls
        ∨ ∃ obj, name obj = plugin
                 ∧ st.1 = {| heap := heap cls ++ [obj];
                             plugins := <[plugin := length (heap cls)]> (plugins cls);
                             processes := processes cls |})).
Proof.
  simpl. destruct (disabled options) eqn:Hd; [by left |]. right.
  split; [done |].
  destruct (load_plugin Plugin_check self plugin options) as [o [obj|e]] eqn:Hl;
    simpl.
  - split; [by eexists |]. right. exists obj. split; [| done].
    by eapply load_plugin_name.
  - split; [by eexists | by left].
Qed.

Lemma grown_refl cls : grown cls cls.
Proof. split; [done | by exists []; rewrite app_nil_r | done]. Qed.

Lemma grown_trans a b c : grown a b → grown b c → grown a c.
Proof.
  intros [P1 (n1 & H1) R1] [P2 (n2 & H2) R2]. split.
  - congruence.
  - exists (n1 ++ n2). by rewrite H2, H1, app_assoc.
  - auto.
Qed.

Lemma register_grown cls plugin obj :
  grown cls {| heap := heap cls ++ [obj];
               plugins := <[plugin := length (heap cls)]> (plugins cls);
               processes := processes cls |}.
Proof.
  split; simpl; [done | by eexists |].
  intros n Hn. destruct (decide (plugin = n)) as [-> | Hne].
  - rewrite lookup_insert_eq. by eexists.
  - by rewrite lookup_insert_ne.
Qed.

Lemma register_wf cls plugin obj :
  wf cls →
  wf {| heap := heap cls ++ [obj];
        plugins := <[plugin := length (heap cls)]> (plugins cls);
        processes := processes cls |}.
Proof.
  intros [Hr Hd Hs Hl]. split; simpl.
  - intros n r. rewrite length_app. simpl.
    destruct (decide (plugin = n)) as [-> | Hne].
    + rewrite lookup_insert_eq. intros [= <-]. lia.
    + rewrite lookup_insert_ne by done. intros H%Hr. lia.
  - intros n1 n2 r.
    destruct (decide (plugin = n1)) as [E1 | H1];
      destruct (decide (plugin = n2)) as [E2 | H2].
    + congruence.
    + subst n1. rewrite lookup_insert_eq, lookup_insert_ne by done.
      intros [= <-] H%Hr. lia.
    + subst n2. rewrite lookup_insert_eq, lookup_insert_ne by done.
      intros H%Hr [= <-]. lia.
    + rewrite !lookup_insert_ne by done. apply Hd.
  - done.
  - intros i proc r Hi Hin. rewrite length_app. simpl.
    specialize (Hl i proc r Hi Hin). lia.
Qed.

(** The whole loop, over any list of entries. *)
Lemma load_entries_spec self items cls conf :
  let st := foldl (load_entry Plugin_check self) (cls, conf) items in
  grown cls st.1
  ∧ (wf cls → wf st.1)
  ∧ (∃ new, heap st.1 = heap cls ++ new
            ∧ ∀ obj, obj ∈ new →
                ∃ options, (name obj, options) ∈ items
                           ∧ disabled options = false)
  ∧ (∀ n, (∀ options, (n, options) ∈ items → disabled options = true) →
          plugins st.1 !! n = plugins cls !! n ∧ st.2 !! n = conf !! n).
Proof.
  revert cls conf. induction items as [| [plugin options] items IH];
    intros cls conf; cbv zeta.
  - simpl. split; [apply grown_refl |]. split; [done |]. split; [| done].
    exists []. rewrite app_nil_r. split; [done |]. by intros obj ?%elem_of_nil.
  - pose proof (load_entry_cases self cls conf plugin options) as Hcase.
    change (foldl (load_entry Plugin_check self) (cls, conf)
                  ((plugin, options) :: items))
      with (foldl (load_entry Plugin_check self)
                  (load_entry Plugin_check self (cls, conf) (plugin, options))
                  items).
    destruct (load_entry Plugin_check self (cls, conf) (plugin, options))
      as [cls1 conf1].
    specialize (IH cls1 conf1). cbv zeta in IH.
    destruct IH as (Hg & Hwf & (new & Hheap & Hnew) & Hskip).
    simpl in Hcase.
    assert (Hsame : ∀ n, (∀ o, (n, o) ∈ (plugin, options) :: items →
                               disabled o = true) →
                    plugins cls1 !! n = plugins cls !! n ∧ conf1 !! n = conf !! n).
    { intros n Hn.
      destruct Hcase as [[_ [= -> ->]] | (Hd & (o & ->) & Hcls)]; [done |].
      assert (plugin ≠ n) as Hne.
      { intros ->. rewrite (Hn options) in Hd; [discriminate | left]. }
      rewrite lookup_insert_ne by done. split; [| done].
      destruct Hcls as [-> | (obj & _ & ->)]; [done |].
      simpl. by rewrite lookup_insert_ne. }
    assert (Hstep : cls1 = cls
                    ∨ disabled options = false
                      ∧ ∃ obj, name obj = plugin
                        ∧ cls1 = {| heap := heap cls ++ [obj];
                                    plugins := <[plugin := length (heap cls)]>
                                                 (plugins cls);
                                    processes := processes cls |}).
    { destruct Hcase as [[_ [= -> _]] | (Hd & _ & [-> | Hobj])]; auto. }
    clear Hcase.
    split; [| split; [| split]].
    + eapply grown_trans; [| exact Hg].
      destruct Hstep as [-> | (_ & obj & _ & ->)];
        [apply grown_refl | apply register_grown].
    + intros Hw. apply Hwf.
      destruct Hstep as [-> | (_ & obj & _ & ->)];
        [done | by apply register_wf].
    + destruct Hstep as [-> | (Hd & obj & Hname & ->)].
      * exists new. split; [done |]. intros obj' Hin.
        destruct (Hnew obj' Hin) as (o & Ho & Hdo). exists o. split; [| done].
        by right.
      * exists (obj :: new). simpl in Hheap. rewrite Hheap, <- app_assoc.
        split; [done |]. intros obj' [-> | Hin]%elem_of_cons.
        -- exists options. rewrite Hname. split; [left | done].
        -- destruct (Hnew obj' Hin) as (o & Ho & Hdo). exists o.
           split; [by right | done].
    + intros n Hn. destruct (Hskip n) as [E1 E2].
      { intros o Ho. apply Hn. by right. }
      destruct (Hsame n Hn) as [E3 E4]. split; congruence.
Qed.

Lemma get_template_str_cases self tname :
  (∃ t, get_template self (VStr tname) = Ok t)
  ∨ get_template self (VStr tname) = Raise NoTemplatesConfigured
  ∨ get_template self (VStr tname) = Raise TemplateNotFound.
Proof.
  unfold get_template. destruct (conf_templates self) as [ts|]; [| auto].
  simpl. destruct (ts !! tname); eauto.
Qed.

(** The three ways through [load_plugins]. *)
Lemma load_plugins_cases cls self :
  load_plugins Plugin_check cls self = (cls, self, Raise BasePluginTemplateNotFound)
  ∨ (conf_plugins self = None
     ∧ load_plugins Plugin_check cls self = (cls, self, Raise AttributeError))
  ∨ (∃ conf, conf_plugins self = Some conf
      ∧ load_plugins Plugin_check cls self
        = let st := foldl (load_entry Plugin_check self) (cls, conf)
                          (map_to_list conf) in
          (st.1, set_conf_plugins self st.2,
           if bool_decide (size (plugins st.1) = 0%nat)
           then Raise NoRunningPlugins else Ok ())).
Proof.
  unfold load_plugins.
  destruct (get_template_str_cases self "BasePlugin") as [[t ->] | [-> | ->]];
    [| by left | by left].
  destruct (conf_plugins self) as [conf|]; [| by right; left].
  right; right. exists conf. split; [done |].
  destruct (foldl _ _ _) as [cls1 conf1]. simpl. by case_bool_decide.
Qed.

Lemma load_plugins_grown cls self :
  grown cls (load_plugins Plugin_check cls self).1.1
  ∧ (wf cls → wf (load_plugins Plugin_check cls self).1.1).
Proof.
  destruct (load_plugins_cases cls self)
    as [-> | [[_ ->] | (conf & _ & ->)]]; simpl;
    [split; [apply grown_refl | done] .. |].
  destruct (load_entries_spec self (map_to_list conf) cls conf)
    as (Hg & Hwf & _). done.
Qed.

Lemma grown_nonempty cls cls' :
  grown cls cls' → plugins cls ≠ ∅ → size (plugins cls') ≠ 0%nat.
Proof.
  intros [_ _ Hp] Hne Hsz. apply map_size_empty_iff in Hsz.
  apply map_choose in Hne as (n & r & Hn).
  destruct (Hp n) as [r' Hr']; [by eexists |].
  rewrite Hsz, lookup_empty in Hr'. discriminate.
Qed.

Lemma load_plugins_not_empty cls self :
  plugins cls ≠ ∅ →
  (load_plugins Plugin_check cls self).2 ≠ Raise NoRunningPlugins.
Proof.
  intros Hne.
  destruct (load_plugins_cases cls self)
    as [-> | [[_ ->] | (conf & _ & ->)]]; simpl; [discriminate .. |].
  destruct (load_entries_spec self (map_to_list conf) cls conf) as (Hg & _).
  cbv zeta in Hg. pose proof (grown_nonempty _ _ Hg Hne).
  by case_bool_decide.
Qed.

(** A name whose configured entry, if any, is disabled keeps whatever the
    registry held for it, and no object is constructed for it. *)
Lemma load_plugins_untouched cls self n :
  (∀ conf options,
     conf_plugins self = Some conf → conf !! n = Some options →
     disabled options = true) →
  plugins (load_plugins Plugin_check cls self).1.1 !! n = plugins cls !! n
  ∧ ∃ new, heap (load_plugins Plugin_check cls self).1.1 = heap cls ++ new
           ∧ ∀ obj, obj ∈ new → name obj ≠ n.
Proof.
  intros Hn.
  destruct (load_plugins_cases cls self)
    as [-> | [[_ ->] | (conf & Hconf & ->)]]; simpl;
    [ split; [done |]; exists []; rewrite app_nil_r; split; [done |];
      by intros obj ?%elem_of_nil .. |].
  destruct (load_entries_spec self (map_to_list conf) cls conf)
    as (_ & _ & (new & Hheap & Hnew) & Hskip). cbv zeta in *.
  assert (Hdis : ∀ o, (n, o) ∈ map_to_list conf → disabled o = true).
  { intros o Ho%elem_of_map_to_list. by eapply Hn. }
  split; [by apply Hskip |].
  exists new. split; [done |]. intros obj Hin Hname.
  destruct (Hnew obj Hin) as (o & Ho & Hd). rewrite Hname in Ho.
  rewrite (Hdis o Ho) in Hd. discriminate.
Qed.

(** A disabled entry is written back as it was read. *)
Lemma load_plugins_conf_untouched cls self conf n options :
  conf_plugins self = Some conf → conf !! n = Some options →
  disabled options = true →
  ∀ conf', conf_plugins (load_plugins Plugin_check cls self).1.2 = Some conf' →
           conf' !! n = Some options.
Proof.
  intros Hconf Hn Hd conf'.
  destruct (load_plugins_cases cls self)
    as [-> | [[E ->] | (conf0 & Hconf0 & ->)]]; simpl.
  - rewrite Hconf. by intros [= <-].
  - rewrite Hconf. by intros [= <-].
  - rewrite Hconf in Hconf0. injection Hconf0 as <-. intros [= <-].
    destruct (load_entries_spec self (map_to_list conf) cls conf)
      as (_ & _ & _ & Hskip). cbv zeta in Hskip.
    destruct (Hskip n) as [_ ->]; [| done].
    intros o Ho%elem_of_map_to_list. congruence.
Qed.

Lemma init_state cls plugins actions templates :
  (init Plugin_check cls plugins actions templates).1
  = (load_plugins Plugin_check cls
       {| conf_plugins := plugins; conf_actions := actions;
          conf_templates := templates; stopping := false |}).1.1.
Proof.
  unfold init. by destruct (load_plugins _ _ _) as [[cls' self'] [[]|e]].
Qed.

Lemma init_result cls plugins actions templates e :
  (init Plugin_check cls plugins actions templates).2 = Raise e ↔
  (load_plugins Plugin_check cls
       {| conf_plugins := plugins; conf_actions := actions;
          conf_templates := templates; stopping := false |}).2 = Raise e.
Proof.
  unfold init. destruct (load_plugins _ _ _) as [[cls' self'] [[]|e']]; simpl;
    split; congruence.
Qed.

(** What the registry holds after the loop is what it held before, or an
    object that the loop has stored. *)
Lemma load_entries_refs self items cls conf n r :
  plugins (foldl (load_entry Plugin_check self) (cls, conf) items).1 !! n
  = Some r →
  plugins cls !! n = Some r ∨ (length (heap cls) ≤ r)%nat.
Proof.
  revert cls conf. induction items as [| [plugin options] items IH];
    intros cls conf; [by left |].
  change (foldl (load_entry Plugin_check self) (cls, conf)
                ((plugin, options) :: items))
    with (foldl (load_entry Plugin_check self)
                (load_entry Plugin_check self (cls, conf) (plugin, options))
                items).
  pose proof (load_entry_cases self cls conf plugin options) as Hcase.
  destruct (load_entry Plugin_check self (cls, conf) (plugin, options))
    as [cls1 conf1]. simpl in Hcase.
  intros Hr. apply IH in Hr.
  destruct Hcase as [[_ [= -> _]] | (_ & _ & [-> | (obj & _ & ->)])];
    [done | done |].
  simpl in Hr. rewrite length_app in Hr. simpl in Hr.
  destruct Hr as [Hr | Hr]; [| right; lia].
  destruct (decide (plugin = n)) as [-> | Hne].
  - rewrite lookup_insert_eq in Hr. injection Hr as <-. by right.
  - rewrite lookup_insert_ne in Hr by done. by left.
Qed.

Lemma load_plugins_refs cls self n r :
  plugins (load_plugins Plugin_check cls self).1.1 !! n = Some r →
  plugins cls !! n = Some r ∨ (length (heap cls) ≤ r)%nat.
Proof.
  destruct (load_plugins_cases cls self)
    as [-> | [[_ ->] | (conf & _ & ->)]]; simpl; [by left .. |].
  apply load_entries_refs.
Qed.

(** C8.  An entry whose options hold [Enabled] = [False] is skipped by
    [load_plugins]: what the registry holds under its name is what it held
    before the pass (nothing, for a name that was not registered), no
    object is constructed for it, and its options are left as they were,
    the action not resolved. *)
Theorem C8_disabled_entry_is_skipped
    (cls : Shared) (self : PluginManager) (conf : gmap string dict)
    (plugin : string) (options : dict) :
  conf_plugins self = Some conf →
  conf !! plugin = Some options →
  options !! "Enabled" = Some (VBool false) →
  let out := load_plugins Plugin_check cls self in
  plugins out.1.1 !! plugin = plugins cls !! plugin
  ∧ (plugins cls !! plugin = None → plugins out.1.1 !! plugin = None)
  ∧ (∃ new, heap out.1.1 = heap cls ++ new
            ∧ ∀ obj, obj ∈ new → name obj ≠ plugin)
  ∧ (∀ conf', conf_plugins out.1.2 = Some conf' →
              conf' !! plugin = Some options).
Proof.
  intros Hconf Hp He out.
  assert (Hd : disabled options = true) by (unfold disabled; by rewrite He).
  destruct (load_plugins_untouched cls self plugin) as [Hreg Hheap].
  { intros conf0 o Hc Ho. rewrite Hconf in Hc. injection Hc as <-. congruence. }
  split; [done |]. split; [intros H; by rewrite <- H |]. split; [done |].
  by eapply load_plugins_conf_untouched.
Qed.

End LoadingFacts.

Lemma C4_missing_base_template_is_fatal_witness :
  init Sample.accept_all class_body (Some {[ "probe" := Sample.options ]}) None
       (Some {[ "T" := ({[ "b" := VInt 3 ]} : dict) ]})
  = (class_body, Raise BasePluginTemplateNotFound).
Proof.
  apply C4_missing_base_template_is_fatal.
  right. eexists. split; [reflexivity | reflexivity].
Defined.

Lemma C8_disabled_entry_is_skipped_witness :
  let out := load_plugins Sample.accept_all class_body Sample.two_entries in
  plugins out.1.1 !! "spare" = plugins class_body !! "spare"
  ∧ (plugins class_body !! "spare" = None → plugins out.1.1 !! "spare" = None)
  ∧ (∃ new, heap out.1.1 = heap class_body ++ new
            ∧ ∀ obj, obj ∈ new → name obj ≠ "spare")
  ∧ (∀ conf', conf_plugins out.1.2 = Some conf' →
              conf' !! "spare" = Some Sample.switched_off).
Proof.
  apply (C8_disabled_entry_is_skipped Sample.accept_all class_body
           Sample.two_entries
           {[ "probe" := Sample.options; "spare" := Sample.switched_off ]}
           "spare" Sample.switched_off);
    reflexivity.
Defined.

(** The enabled entry of the same configuration is registered. *)
Example two_entries_loaded :
  let out := load_plugins Sample.accept_all class_body Sample.two_entries in
  plugins out.1.1 = {[ "probe" := 0%nat ]} ∧ out.2 = Ok ().
Proof. by vm_compute. Qed.

(** A constructor that rejects every plugin leaves the registry of the
    first manager empty, and the pass ends in NoRunningPlugins; without a
    plugin configuration it ends in AttributeError. *)
Example nothing_loaded :
  init (λ _ _, Some InvalidParameters) class_body
       (conf_plugins Sample.manager) None (conf_templates Sample.manager)
  = (class_body, Raise NoRunningPlugins)
  ∧ init Sample.accept_all class_body None None (conf_templates Sample.manager)
    = (class_body, Raise AttributeError).
Proof. by vm_compute. Qed.

(** ** Filtering the registry *)

Lemma elem_of_List_filter {A} (f : A → bool) (l : list A) (x : A) :
  x ∈ List.filter f l ↔ x ∈ l ∧ f x = true.
Proof. rewrite !list_elem_of_In. apply filter_In. Qed.

Lemma NoDup_List_filter {A} (f : A → bool) (l : list A) :
  NoDup l → NoDup (List.filter f l).
Proof.
  induction 1 as [| x l Hx Hl IH]; simpl; [constructor |].
  destruct (f x); [| done]. constructor; [| done].
  rewrite elem_of_List_filter. tauto.
Qed.

Lemma registry_values (m : gmap string nat) (r : nat) :
  r ∈ (snd <$> map_to_list m) ↔ ∃ n, m !! n = Some r.
Proof.
  rewrite list_elem_of_fmap. split.
  - intros ([n r'] & -> & H%elem_of_map_to_list). by exists n.
  - intros (n & H). exists (n, r). split; [done |]. by apply elem_of_map_to_list.
Qed.

Lemma registry_values_NoDup (m : gmap string nat) :
  (∀ n1 n2 r, m !! n1 = Some r → m !! n2 = Some r → n1 = n2) →
  NoDup (snd <$> map_to_list m).
Proof.
  intros Hinj. apply NoDup_fmap_2_strong; [| apply NoDup_map_to_list].
  intros [n1 r1] [n2 r2] H1%elem_of_map_to_list H2%elem_of_map_to_list.
  simpl. intros <-. f_equal. by eapply Hinj.
Qed.

Lemma ref_matches_true cls key value r :
  ref_matches cls key value r = true ↔
  ∃ p v, heap cls !! r = Some p ∧ params p !! key = Some v
         ∧ py_eq v value = true.
Proof.
  unfold ref_matches, param_matches. split.
  - destruct (heap cls !! r) as [p|]; [| discriminate].
    destruct (params p !! key) as [v|] eqn:Hv; [| discriminate]. eauto.
  - intros (p & v & -> & -> & H). done.
Qed.

Lemma get_plugins_single cls key value :
  get_plugins cls (Some {[ key := value ]})
  = PluginList (List.filter (ref_matches cls key value)
                            (snd <$> map_to_list (plugins cls))).
Proof. unfold get_plugins. simpl. by rewrite map_to_list_singleton. Qed.

(** A filter that is true always gives a list. *)
Lemma get_plugins_filter_list cls (filter : dict) item items :
  map_to_list filter = item :: items →
  ∃ l, get_plugins cls (Some filter) = PluginList l.
Proof.
  intros H. unfold get_plugins. simpl. rewrite H. destruct item. eauto.
Qed.

(** C5.  With the one-entry filter {key: value}, [get_plugins] returns the
    registered plugins whose parameters hold [key] with a value equal
    ([==]) to [value], those and no others, each once; without a filter it
    returns the registry mapping itself. *)
Theorem C5_get_plugins (cls : Shared) (key : string) (value : value) :
  (∃ l, get_plugins cls (Some {[ key := value ]}) = PluginList l
        ∧ (∀ r, r ∈ l ↔
                ∃ n p v, plugins cls !! n = Some r ∧ heap cls !! r = Some p
                         ∧ params p !! key = Some v ∧ py_eq v value = true)
        ∧ (wf cls → NoDup l))
  ∧ get_plugins cls None = PluginDict (plugins cls).
Proof.
  split; [| reflexivity].
  eexists. split; [apply get_plugins_single |]. split.
  - intros r. rewrite elem_of_List_filter, registry_values, ref_matches_true.
    split.
    + intros [[n Hn] (p & v & Hp & Hv & He)]. by exists n, p, v.
    + intros (n & p & v & Hn & Hp & Hv & He). split; [by exists n |].
      by exists p, v.
  - intros [_ Hd _ _]. apply NoDup_List_filter. by apply registry_values_NoDup.
Qed.

Lemma C5_get_plugins_witness :
  (∃ l, get_plugins Sample.loaded (Some {[ "b" := VInt 3 ]}) = PluginList l
        ∧ (∀ r, r ∈ l ↔
                ∃ n p v, plugins Sample.loaded !! n = Some r
                         ∧ heap Sample.loaded !! r = Some p
                         ∧ params p !! "b" = Some v ∧ py_eq v (VInt 3) = true)
        ∧ (wf Sample.loaded → NoDup l))
  ∧ get_plugins Sample.loaded None = PluginDict (plugins Sample.loaded).
Proof. exact (C5_get_plugins Sample.loaded "b" (VInt 3)). Defined.

Example get_plugins_by_template :
  get_plugins Sample.loaded (Some {[ "Template" := VStr "T" ]}) = PluginList [0%nat]
  ∧ get_plugins Sample.loaded (Some {[ "b" := VInt 2 ]}) = PluginList [].
Proof. by vm_compute. Qed.

(** ** Forcing runs *)

Lemma get_plugin_cases cls n :
  (∃ r, plugins cls !! n = Some r ∧ get_plugin cls n = Ok r)
  ∨ (plugins cls !! n = None ∧ get_plugin cls n = Raise NoSuchPlugin).
Proof. unfold get_plugin. destruct (plugins cls !! n); eauto. Qed.

Lemma mapM_get_plugin_unknown cls (l : list string) n :
  n ∈ l → plugins cls !! n = None →
  mapM (get_plugin cls) l = Raise NoSuchPlugin.
Proof.
  intros Hin Hn. induction l as [| x l IH]; [by apply elem_of_nil in Hin |].
  simpl. destruct (get_plugin_cases cls x) as [(r & Hr & ->) | [_ ->]]; [| done].
  simpl. apply elem_of_cons in Hin as [-> | Hin]; [congruence |].
  by rewrite (IH Hin).
Qed.

Lemma mapM_get_plugin_Ok cls (l : list string) refs :
  mapM (get_plugin cls) l = Ok refs →
  length refs = length l ∧ ∀ r, r ∈ refs → ∃ n, plugins cls !! n = Some r.
Proof.
  revert refs. induction l as [| x l IH]; intros refs; simpl.
  - intros [= <-]. split; [done |]. by intros r ?%elem_of_nil.
  - destruct (get_plugin_cases cls x) as [(r & Hr & ->) | [_ ->]];
      [| discriminate].
    simpl. destruct (mapM (get_plugin cls) l) as [refs'|]; [| discriminate].
    simpl. intros [= <-]. destruct (IH refs' eq_refl) as [Hlen Hin].
    split; [simpl; by rewrite Hlen |].
    intros r' [-> | H]%elem_of_cons; eauto.
Qed.

(** Every collected reference is registered. *)
Lemma collect_plugins_registered cls names filter l :
  collect_plugins cls names filter = Ok l →
  ∀ r, r ∈ l → ∃ n, plugins cls !! n = Some r.
Proof.
  unfold collect_plugins. intros (named & Hnamed & H)%result_bind_Ok.
  injection H as <-. intros r [Hr | Hr]%elem_of_app.
  - destruct names as [[| n ns] |];
      [injection Hnamed as <-; by apply elem_of_nil in Hr | |
       injection Hnamed as <-; by apply elem_of_nil in Hr].
    by eapply mapM_get_plugin_Ok.
  - destruct filter as [f |]; simpl in Hr; [| by apply elem_of_nil in Hr].
    unfold get_plugins in Hr. simpl in Hr.
    destruct (map_to_list f) as [| [key value] items];
      [by apply elem_of_nil in Hr |].
    apply elem_of_List_filter in Hr as [Hr _]. by apply registry_values.
Qed.

(** The two outcomes of [add_process]. *)
Lemma add_process_cases cls names filter :
  (∃ e, add_process cls names filter = (cls, Raise e)
        ∧ (collect_plugins cls names filter = Raise e
           ∨ collect_plugins cls names filter = Ok [] ∧ e = NoPluginsFound))
  ∨ (∃ l, collect_plugins cls names filter = Ok l ∧ l ≠ []
          ∧ add_process cls names filter
            = ({| heap := foldl (λ h r, alter force_run r h) (heap cls) l;
                  plugins := plugins cls;
                  processes := processes cls ++ [Some (mkProcess l)] |},
               Ok (Z.of_nat (length (processes cls))))).
Proof.
  unfold add_process. destruct (collect_plugins cls names filter) as [l | e].
  - case_bool_decide as Hl.
    + left. exists NoPluginsFound. split; [done |]. right.
      by destruct l.
    + right. exists l. split; [done |]. split; [by intros -> |].
      do 2 f_equal. rewrite length_app. simpl. lia.
  - left. exists e. auto.
Qed.

Lemma add_process_Raise cls names filter cls' e :
  add_process cls names filter = (cls', Raise e) → cls' = cls.
Proof.
  destruct (add_process_cases cls names filter)
    as [(e' & -> & _) | (l & _ & _ & ->)]; congruence.
Qed.

Lemma force_run_twice p : force_run (force_run p) = force_run p.
Proof. reflexivity. Qed.

(** The objects after the forcing loop. *)
Lemma force_loop_lookup (h : list Plugin) (l : list nat) (r : nat) :
  foldl (λ h r, alter force_run r h) h l !! r
  = if decide (r ∈ l) then force_run <$> h !! r else h !! r.
Proof.
  revert h. induction l as [| x l IH]; intros h.
  - case_decide as H; [by apply elem_of_nil in H | done].
  - change (foldl (λ h r, alter force_run r h) h (x :: l))
      with (foldl (λ h r, alter force_run r h) (alter force_run x h) l).
    rewrite IH. destruct (decide (x = r)) as [-> | Hne].
    + rewrite list_lookup_alter_eq.
      destruct (decide (r ∈ r :: l)) as [_ | Hn]; [| by destruct Hn; left].
      case_decide; [| done]. by destruct (h !! r).
    + rewrite list_lookup_alter_ne by done.
      destruct (decide (r ∈ l)) as [Hin | Hnin];
        destruct (decide (r ∈ x :: l)) as [Hin' | Hnin']; try done.
      * destruct Hnin'. by right.
      * apply elem_of_cons in Hin' as [-> | ?]; done.
Qed.

Lemma force_loop_length (h : list Plugin) (l : list nat) :
  length (foldl (λ h r, alter force_run r h) h l) = length h.
Proof.
  revert h. induction l as [| x l IH]; intros h; simpl; [done |].
  by rewrite IH, length_alter.
Qed.

(** [get_process] on an index that is not negative: the entry at that
    position, IndexError past the end. *)
Lemma get_process_nonneg cls (id : Z) :
  (0 ≤ id)%Z →
  get_process cls id
  = match processes cls !! Z.to_nat id with
    | Some entry => Ok entry
    | None => Raise IndexError
    end.
Proof.
  intros Hid. unfold get_process.
  rewrite (bool_decide_eq_false_2 (id < 0)) by lia.
  case_bool_decide as Hlt; [done |].
  rewrite (lookup_ge_None_2 (processes cls) (Z.to_nat id)); [done | lia].
Qed.

(** [get_process] on a negative index counts from the end of the ledger. *)
Lemma get_process_negative cls (id : Z) :
  (- Z.of_nat (length (processes cls)) ≤ id < 0)%Z →
  get_process cls id = get_process cls (id + Z.of_nat (length (processes cls))).
Proof.
  intros Hid. rewrite (get_process_nonneg cls (id + _)) by lia.
  unfold get_process.
  rewrite (bool_decide_eq_true_2 (id < 0)) by lia.
  by rewrite bool_decide_eq_true_2 by lia.
Qed.

Lemma get_process_last cls entry :
  get_process {| heap := heap cls; plugins := plugins cls;
                 processes := processes cls ++ [entry] |}
              (Z.of_nat (length (processes cls)))
  = Ok entry.
Proof.
  rewrite get_process_nonneg by lia. simpl.
  rewrite Nat2Z.id, lookup_app_r by lia.
  by rewrite Nat.sub_diag.
Qed.

Lemma add_process_wf cls names filter :
  wf cls → wf (add_process cls names filter).1.
Proof.
  intros Hwf.
  destruct (add_process_cases cls names filter)
    as [(e & -> & _) | (l & Hl & _ & ->)]; [done |].
  destruct Hwf as [Hr Hd Hs Hp]. split; simpl.
  - intros n r H. rewrite force_loop_length. eauto.
  - done.
  - by apply lookup_app_l_Some.
  - intros i proc r Hi Hin. rewrite force_loop_length.
    apply lookup_app_Some in Hi as [Hi | [_ Hi]]; [eauto |].
    destruct (i - length (processes cls))%nat; [| done].
    injection Hi as <-. simpl in Hin.
    destruct (collect_plugins_registered _ _ _ _ Hl r Hin) as [n Hn]. eauto.
Qed.

(** C2, as stated, fails for an unknown name: the lookup of the name raises
    NoSuchPlugin before the list is tested for emptiness. *)
Lemma C2_unknown_name_raises_NoSuchPlugin :
  (∀ n, n ∈ ["ghost"] → plugins Sample.loaded !! n = None)
  ∧ add_process Sample.loaded (Some ["ghost"]) None
    = (Sample.loaded, Raise NoSuchPlugin)
  ∧ (add_process Sample.loaded (Some ["ghost"]) None).2 ≠ Raise NoPluginsFound.
Proof.
  split; [| split].
  - intros n ->%list_elem_of_singleton. by vm_compute.
  - by vm_compute.
  - by vm_compute.
Qed.

(** C2 (amended).  A call of [add_process] that names an unregistered plugin
    fails with NoSuchPlugin; a call without names (omitted or empty) whose
    filter is omitted, empty or matches no plugin fails with NoPluginsFound;
    and every failing call leaves the class state (the ledger and every
    plugin object) as it was. *)
Theorem C2_add_process_failures
    (cls : Shared) (names : option (list string)) (filter : option dict) :
  (∀ l n, names = Some l → n ∈ l → plugins cls !! n = None →
          add_process cls names filter = (cls, Raise NoSuchPlugin))
  ∧ ((names = None ∨ names = Some []) →
     (filter = None ∨ filter = Some ∅
      ∨ get_plugins cls filter = PluginList []) →
     add_process cls names filter = (cls, Raise NoPluginsFound))
  ∧ (∀ cls' e, add_process cls names filter = (cls', Raise e) → cls' = cls).
Proof.
  split; [| split].
  - intros l n -> Hin Hn. unfold add_process, collect_plugins.
    destruct l as [| x l]; [by apply elem_of_nil in Hin |].
    by rewrite (mapM_get_plugin_unknown cls (x :: l) n Hin Hn).
  - intros Hnames Hfilter. unfold add_process, collect_plugins.
    assert (Hnamed : match names with
                     | Some (n :: ns) => mapM (get_plugin cls) (n :: ns)
                     | _ => mret []
                     end = Ok []) by (by destruct Hnames as [-> | ->]).
    rewrite Hnamed. simpl.
    destruct Hfilter as [-> | [-> | Hf]]; [done | done |].
    destruct filter as [f |]; [| done]. simpl.
    destruct (map_to_list f); [done |]. by rewrite Hf.
  - intros cls' e. apply add_process_Raise.
Qed.

Lemma C2_add_process_failures_witness :
  add_process Sample.loaded (Some ["probe"; "ghost"]) (Some {[ "b" := VInt 3 ]})
  = (Sample.loaded, Raise NoSuchPlugin)
  ∧ add_process Sample.loaded (Some []) (Some {[ "b" := VInt 2 ]})
    = (Sample.loaded, Raise NoPluginsFound)
  ∧ add_process Sample.loaded None None = (Sample.loaded, Raise NoPluginsFound).
Proof.
  split; [| split].
  - apply (C2_add_process_failures Sample.loaded (Some ["probe"; "ghost"])
             (Some {[ "b" := VInt 3 ]}))
      with (l := ["probe"; "ghost"]) (n := "ghost");
      [reflexivity | by right; left | by vm_compute].
  - apply (C2_add_process_failures Sample.loaded (Some [])
             (Some {[ "b" := VInt 2 ]}));
      [by right | right; right; by vm_compute].
  - apply (C2_add_process_failures Sample.loaded None None); by left.
Defined.

(** C6.  A successful [add_process] records the collected plugins as the
    new process and, for each of them, sets [force] and clears
    [forced_result], whatever they held before; every other object, and the
    registry, is as it was. *)
Theorem C6_add_process_forces
    (cls cls' : Shared) (names : option (list string)) (filter : option dict)
    (id : Z) :
  wf cls →
  add_process cls names filter = (cls', Ok id) →
  ∃ l, collect_plugins cls names filter = Ok l
       ∧ get_process cls' id = Ok (Some (mkProcess l))
       ∧ (∀ r, r ∈ l →
               ∃ p, heap cls !! r = Some p
                    ∧ heap cls' !! r
                      = Some (mkPlugin (name p) (params p) true None))
       ∧ (∀ r, r ∉ l → heap cls' !! r = heap cls !! r)
       ∧ plugins cls' = plugins cls.
Proof.
  intros Hwf Hadd.
  destruct (add_process_cases cls names filter)
    as [(e & He & _) | (l & Hl & _ & Hok)]; [congruence |].
  rewrite Hok in Hadd. injection Hadd as <- <-.
  exists l. split; [done |]. split; [| split; [| split]].
  - apply (get_process_last
             {| heap := foldl (λ h r, alter force_run r h) (heap cls) l;
                plugins := plugins cls; processes := processes cls |}).
  - intros r Hr. simpl. rewrite force_loop_lookup, decide_True by done.
    destruct (collect_plugins_registered _ _ _ _ Hl r Hr) as [n Hn].
    apply (wf_registry _ Hwf) in Hn.
    destruct (lookup_lt_is_Some_2 _ _ Hn) as [p Hp].
    exists p. by rewrite Hp.
  - intros r Hr. simpl. by rewrite force_loop_lookup, decide_False.
  - done.
Qed.

Lemma class_body_wf : wf class_body.
Proof.
  split; simpl; [| | done |].
  - intros n r. by rewrite lookup_empty.
  - intros n1 n2 r. by rewrite lookup_empty.
  - intros [| i] proc r; simpl; [done |]. by rewrite lookup_nil.
Qed.

Lemma init_grown Plugin_check cls plugins actions templates :
  grown cls (init Plugin_check cls plugins actions templates).1
  ∧ (wf cls → wf (init Plugin_check cls plugins actions templates).1).
Proof. rewrite init_state. apply load_plugins_grown. Qed.

Lemma sample_forced_once_wf : wf Sample.forced_once.
Proof.
  apply add_process_wf. apply init_grown. apply class_body_wf.
Qed.

(** The plugin of the sample is forced a second time. *)
Lemma C6_add_process_forces_witness :
  ∃ l, collect_plugins Sample.forced_once None (Some {[ "c" := VInt 5 ]}) = Ok l
       ∧ get_process (add_process Sample.forced_once None
                                  (Some {[ "c" := VInt 5 ]})).1 2
         = Ok (Some (mkProcess l))
       ∧ (∀ r, r ∈ l →
               ∃ p, heap Sample.forced_once !! r = Some p
                    ∧ heap (add_process Sample.forced_once None
                                        (Some {[ "c" := VInt 5 ]})).1 !! r
                      = Some (mkPlugin (name p) (params p) true None))
       ∧ (∀ r, r ∉ l →
               heap (add_process Sample.forced_once None
                                 (Some {[ "c" := VInt 5 ]})).1 !! r
               = heap Sample.forced_once !! r)
       ∧ plugins (add_process Sample.forced_once None
                              (Some {[ "c" := VInt 5 ]})).1
         = plugins Sample.forced_once.
Proof.
  apply (C6_add_process_forces Sample.forced_once _ None
           (Some {[ "c" := VInt 5 ]}) 2 sample_forced_once_wf).
  by vm_compute.
Defined.

Example forced_once_flag :
  force <$> heap Sample.forced_once !! 0%nat = Some true
  ∧ force <$> heap Sample.loaded !! 0%nat = Some false.
Proof. by vm_compute. Qed.

(** ** Handles *)

(** Along a session the ledger only grows at its end, by one process per
    successful call, and each handle is the length the ledger had before
    the call. *)
Lemma session_ledger cls ids cls' :
  session cls ids cls' →
  ids = Z.of_nat <$> seq (length (processes cls)) (length ids)
  ∧ ∃ new : list Process,
      processes cls' = processes cls ++ (Some <$> new)
      ∧ length new = length ids.
Proof.
  induction 1 as [cls | cls names filter cls1 id ids cls2 Hadd _ IH
                       | cls cls1 ids cls2 Hsame _ IH].
  - split; [done |]. exists []. by rewrite app_nil_r.
  - destruct (add_process_cases cls names filter)
      as [(e & He & _) | (l & _ & _ & Hok)]; [congruence |].
    rewrite Hok in Hadd. injection Hadd as <- <-.
    simpl in IH. rewrite length_app in IH. simpl in IH.
    destruct IH as (Hids & new & Hnew & Hlen).
    split.
    + simpl. f_equal. rewrite Hids at 1. do 2 f_equal. lia.
    + exists (mkProcess l :: new). simpl. rewrite Hnew, <- app_assoc.
      split; [done | by rewrite Hlen].
  - rewrite Hsame in IH. done.
Qed.

(** C3, as stated, fails twice over: a negative handle is looked up from
    the end of the ledger and finds a record, and the first handle of a
    manager constructed after another one continues the shared ledger. *)
Lemma C3_negative_handle_and_second_manager :
  (add_process Sample.loaded (Some ["probe"]) None).2 = Ok 1
  ∧ get_process Sample.forced_once (-1) = Ok (Some (mkProcess [0%nat]))
  ∧ (add_process
       (init Sample.accept_all Sample.forced_once
             (conf_plugins Sample.manager) (conf_actions Sample.manager)
             (conf_templates Sample.manager)).1
       (Some ["probe"]) None).2 = Ok 2.
Proof. by vm_compute. Qed.

(** C3 (amended).  From the first manager constructed in the process (the
    ledger then holds only the [None] of index 0), the handles of the
    successful [add_process] calls are 1, 2, 3, ... in order, each the
    position of its record in the ledger; [get_process 0] returns [None],
    no record, and [get_process h] raises IndexError for every [h] above
    the last handle. *)
Theorem C3_handles_count_from_one
    (Plugin_check : string → dict → option construction_error)
    (plugins : option (gmap string dict)) (actions : option dict)
    (templates : option (gmap string dict)) (ids : list Z) (cls' : Shared) :
  session (init Plugin_check class_body plugins actions templates).1 ids cls' →
  ids = Z.of_nat <$> seq 1 (length ids)
  ∧ (∀ k id, ids !! k = Some id →
       id = Z.of_nat (S k)
       ∧ ∃ proc, processes cls' !! S k = Some (Some proc)
                 ∧ get_process cls' id = Ok (Some proc))
  ∧ get_process cls' 0 = Ok None
  ∧ (∀ h, (Z.of_nat (length ids) < h)%Z → get_process cls' h = Raise IndexError).
Proof.
  intros Hs. apply session_ledger in Hs as (Hids & new & Hnew & Hlen).
  destruct (init_grown Plugin_check class_body plugins actions templates)
    as [[Hp _ _] _].
  rewrite Hp in Hids, Hnew. simpl in Hids, Hnew.
  split; [done |]. split; [| split].
  - intros k id Hk.
    assert (Hlt : (k < length ids)%nat) by (by eapply lookup_lt_Some).
    assert (id = Z.of_nat (S k)) as ->.
    { rewrite Hids, list_lookup_fmap, lookup_seq_lt in Hk by done.
      by injection Hk as <-. }
    split; [done |].
    destruct (lookup_lt_is_Some_2 new k) as [proc Hproc]; [lia |].
    exists proc.
    assert (processes cls' !! S k = Some (Some proc)) as Hl.
    { rewrite Hnew. simpl. by rewrite list_lookup_fmap, Hproc. }
    split; [done |]. rewrite get_process_nonneg by lia.
    by rewrite Nat2Z.id, Hl.
  - rewrite get_process_nonneg by lia. by rewrite Hnew.
  - intros h Hh. rewrite get_process_nonneg by lia.
    rewrite lookup_ge_None_2; [done |].
    rewrite Hnew. simpl. rewrite length_fmap. lia.
Qed.

Lemma C3_handles_count_from_one_witness :
  [1; 2] = Z.of_nat <$> seq 1 2
  ∧ get_process
      (add_process Sample.forced_once None (Some {[ "c" := VInt 5 ]})).1 0
    = Ok None
  ∧ get_process
      (add_process Sample.forced_once None (Some {[ "c" := VInt 5 ]})).1 3
    = Raise IndexError.
Proof.
  assert (Hs : session Sample.loaded [1; 2]
                 (add_process Sample.forced_once None
                              (Some {[ "c" := VInt 5 ]})).1).
  { eapply (session_add _ (Some ["probe"]) None Sample.forced_once);
      [by vm_compute |].
    eapply (session_add _ None (Some {[ "c" := VInt 5 ]})); [by vm_compute |].
    apply session_done. }
  destruct (C3_handles_count_from_one _ _ _ _ _ _ Hs) as (H1 & _ & H0 & Hout).
  split; [exact H1 |]. split; [exact H0 |]. apply Hout. simpl. lia.
Defined.

(** The ledger of the sample after one forced run, read at every kind of
    index. *)
Example get_process_by_index :
  get_process Sample.forced_once 0 = Ok None
  ∧ get_process Sample.forced_once 1 = Ok (Some (mkProcess [0%nat]))
  ∧ get_process Sample.forced_once 2 = Raise IndexError
  ∧ get_process Sample.forced_once (-2) = Ok None
  ∧ get_process Sample.forced_once (-3) = Raise IndexError.
Proof. by vm_compute. Qed.

(** ** One registry and one ledger for every manager *)

Lemma add_process_Ok_handle cls names filter cls' id :
  add_process cls names filter = (cls', Ok id) →
  id = Z.of_nat (length (processes cls)).
Proof.
  destruct (add_process_cases cls names filter)
    as [(e & -> & _) | (l & _ & _ & ->)]; [discriminate |].
  by intros [= _ <-].
Qed.

(** C10, as stated, fails for a name that the new manager loads too: the
    registry entry is overwritten with the object the new manager
    constructs, and the plugin that the earlier manager registered, still
    listed by the process of handle 1, is no longer the registered one. *)
Lemma C10_same_name_replaces_plugin :
  let second :=
    (init Sample.accept_all Sample.forced_once
          (conf_plugins Sample.manager) (conf_actions Sample.manager)
          (conf_templates Sample.manager)).1 in
  plugins Sample.forced_once !! "probe" = Some 0%nat
  ∧ plugins second !! "probe" = Some 1%nat
  ∧ get_process second 1 = Ok (Some (mkProcess [0%nat]))
  ∧ force <$> heap second !! 0%nat = Some true
  ∧ force <$> heap second !! 1%nat = Some false.
Proof. by vm_compute. Qed.

(** C10 (amended).  [plugins] and [processes] belong to the class and the
    constructor assigns neither, so a manager constructed after another
    finds the registry and the ledger that the earlier one left: the ledger
    is the same, the plugin objects are all still in the store, and every
    registered name stays registered, with the object it had or with one
    that the new manager has constructed (with the object it had whenever
    the new configuration has no enabled entry of that name); the first
    handle the new manager gives out is the length of the ledger and not 1,
    and the load pass does not raise NoRunningPlugins when the registry was
    not empty. *)
Theorem C10_class_state_is_shared
    (Plugin_check : string → dict → option construction_error) (cls : Shared)
    (plugins_conf : option (gmap string dict)) (actions : option dict)
    (templates : option (gmap string dict)) :
  let out := init Plugin_check cls plugins_conf actions templates in
  processes out.1 = processes cls
  ∧ (∃ new, heap out.1 = heap cls ++ new)
  ∧ (∀ n, is_Some (plugins cls !! n) → is_Some (plugins out.1 !! n))
  ∧ (∀ n, (∀ conf options, plugins_conf = Some conf →
                           conf !! n = Some options → disabled options = true) →
          plugins out.1 !! n = plugins cls !! n)
  ∧ (∀ names filter cls' id,
       add_process out.1 names filter = (cls', Ok id) →
       id = Z.of_nat (length (processes cls)))
  ∧ (plugins cls ≠ ∅ → out.2 ≠ Raise NoRunningPlugins)
  ∧ (∀ n r, plugins out.1 !! n = Some r →
            plugins cls !! n = Some r ∨ (length (heap cls) ≤ r)%nat).
Proof.
  intros out. subst out.
  destruct (init_grown Plugin_check cls plugins_conf actions templates)
    as [[Hp Hh Hr] _].
  split; [done |]. split; [done |]. split; [done |].
  split; [| split; [| split]].
  - intros n Hn. rewrite init_state. by apply load_plugins_untouched.
  - intros names filter cls' id Hadd.
    apply add_process_Ok_handle in Hadd. by rewrite Hp in Hadd.
  - intros Hne Hres. apply init_result in Hres.
    by apply load_plugins_not_empty in Hres.
  - intros n r. rewrite init_state. apply load_plugins_refs.
Qed.

(** A second manager, whose own configuration has no enabled plugin, is
    constructed after the first one has forced a run: it succeeds on the
    plugins the first one registered, and its first handle is 2. *)
Lemma C10_class_state_is_shared_witness :
  let second :=
    init Sample.accept_all Sample.forced_once
         (Some {[ "spare" := Sample.switched_off ]}) None
         (conf_templates Sample.manager) in
  processes second.1 = processes Sample.forced_once
  ∧ plugins second.1 !! "probe" = plugins Sample.forced_once !! "probe"
  ∧ (add_process second.1 (Some ["probe"]) None).2 = Ok 2
  ∧ second.2 ≠ Raise NoRunningPlugins.
Proof.
  intros second.
  destruct (C10_class_state_is_shared Sample.accept_all Sample.forced_once
              (Some {[ "spare" := Sample.switched_off ]}) None
              (conf_templates Sample.manager))
    as (Hp & _ & _ & Hsame & Hid & Hne & _).
  split; [exact Hp |]. split; [| split].
  - apply Hsame. intros conf options [= <-] Ho.
    destruct (decide ("spare" = "probe")) as [E | E]; [discriminate E |].
    rewrite lookup_singleton_ne in Ho by exact E. discriminate Ho.
  - destruct (add_process second.1 (Some ["probe"]) None) as [cls' r] eqn:E.
    assert (r = Ok 2) as -> by (by vm_compute in E; injection E as _ <-).
    reflexivity.
  - apply Hne. vm_compute. discriminate.
Defined.

(** ** Stopping *)

Section StoppingFacts.

Variable is_alive : nat → nat → bool.

Lemma alive_names_nil cls poll :
  alive_names is_alive cls poll = [] ↔ all_stopped is_alive cls poll.
Proof.
  unfold alive_names, all_stopped. split.
  - intros Hnil%fmap_nil_inv n r Hn. destruct (is_alive poll r) eqn:Ha; [| done].
    assert ((n, r) ∈ List.filter (λ item, is_alive poll item.2)
                                 (map_to_list (plugins cls))) as Hin.
    { apply elem_of_List_filter. split; [by apply elem_of_map_to_list | done]. }
    rewrite Hnil in Hin. by apply elem_of_nil in Hin.
  - intros Hall.
    destruct (List.filter (λ item, is_alive poll item.2)
                          (map_to_list (plugins cls)))
      as [| [n r] l] eqn:Hf; [done |].
    assert ((n, r) ∈ List.filter (λ item, is_alive poll item.2)
                                 (map_to_list (plugins cls))) as Hin.
    { rewrite Hf. left. }
    apply elem_of_List_filter in Hin as [Hin%elem_of_map_to_list Ha].
    simpl in Ha. by rewrite (Hall n r Hin) in Ha.
Qed.

Lemma wait_plugins_nil cls fuel poll cnt :
  wait_plugins is_alive cls fuel poll [] cnt = Some [].
Proof. by destruct fuel. Qed.

(** One round of the loop, unfolded. *)
Lemma wait_plugins_round cls fuel poll x left cnt :
  wait_plugins is_alive cls (S fuel) poll (x :: left) cnt
  = match alive_names is_alive cls poll with
    | [] => Some []
    | y :: names =>
        rest ← wait_plugins is_alive cls fuel (S poll) (y :: names)
                            (length (y :: names));
        Some ((if bool_decide (length (y :: names) = cnt) then []
               else [EvInfo (length (y :: names)) (y :: names)])
              ++ EvSleep (1 # 2) :: rest)
    end.
Proof.
  simpl. destruct (alive_names is_alive cls poll) as [| y names].
  - apply wait_plugins_nil.
  - destruct (wait_plugins _ _ _ _ _ _); simpl; [| done].
    repeat case_bool_decide; done.
Qed.

(** When the loop returns, it has gone through the rounds up to the first
    one in which no plugin was alive, and has left the trace of the
    specification. *)
Lemma wait_plugins_Some cls fuel poll x left cnt evs :
  wait_plugins is_alive cls fuel poll (x :: left) cnt = Some evs →
  ∃ n, (n < fuel)%nat
       ∧ all_stopped is_alive cls (poll + n)
       ∧ (∀ i, (i < n)%nat → ¬ all_stopped is_alive cls (poll + i))
       ∧ evs = rounds_spec is_alive cls cnt poll n.
Proof.
  revert poll x left cnt evs.
  induction fuel as [| fuel IH]; intros poll x left cnt evs; [done |].
  rewrite wait_plugins_round.
  destruct (alive_names is_alive cls poll) as [| y names] eqn:Hnames.
  - intros [= <-]. exists 0%nat. rewrite Nat.add_0_r.
    split; [lia |]. split; [by apply alive_names_nil |]. split; [lia | done].
  - intros (rest & Hrest & [= <-])%bind_Some.
    apply IH in Hrest as (n & Hn & Hstop & Hbefore & ->).
    exists (S n). split; [lia |]. split; [| split].
    + by rewrite Nat.add_succ_r.
    + intros [| i] Hi.
      * rewrite Nat.add_0_r, <- alive_names_nil, Hnames. done.
      * rewrite Nat.add_succ_r. apply Hbefore. lia.
    + simpl. by rewrite Hnames.
Qed.





(** The outcome of a blocking [stop], in terms of the loop. *)
Lemma stop_blocking cls self fuel :
  (stop is_alive cls self true fuel).2
  = rest ← wait_plugins is_alive cls fuel 0 (fst <$> map_to_list (plugins cls))
                        (size (plugins cls));
    Some (terminations cls ++ rest).
Proof. unfold stop. simpl. by rewrite length_fmap, length_map_to_list. Qed.


End StoppingFacts.

Example stop_pair_trace :
  map_to_list (plugins Sample.pair) = [("extra", 0%nat); ("probe", 1%nat)]
  ∧ (stop Sample.winding_down Sample.pair Sample.manager true 3).2
    = Some [EvTerminate 0; EvTerminate 1;
            EvSleep (1 # 2);
            EvInfo 1 ["extra"]; EvSleep (1 # 2)].
Proof. by vm_compute. Qed.


(** ** The bound on probes in progress *)

Module GateFacts.
Import Gate.

Lemma weight_phase t :
  weight t = match task_phase t with Probing => 1%nat | _ => 0%nat end.
Proof. unfold weight, probing. by destruct (task_phase t). Qed.

(** Replacing one task changes the number of running probes by the
    difference of the two tasks. *)
Lemma in_progress_set (ts : list task) (i : nat) (t t' : task) :
  ts !! i = Some t →
  (length (List.filter probing (<[i := t']> ts)) + weight t
   = length (List.filter probing ts) + weight t')%nat.
Proof.
  revert i. induction ts as [| x ts IH]; intros i; [done |].
  destruct i as [| i]; simpl.
  - intros [= ->]. unfold weight.
    destruct (probing t), (probing t'); simpl; lia.
  - intros H%IH. destruct (probing x); simpl; lia.
Qed.

Lemma step_balanced capacity s s' :
  step s s' → balanced capacity s → balanced capacity s'.
Proof.
  unfold balanced, in_progress.
  destruct 1 as [s i t Hi | s i t Hi Hph | s i t n Hi Hph Hsem | s i t Hi Hph];
    simpl; intros Hb.
  - pose proof (in_progress_set _ _ _ (mkTask (task_phase t) true) Hi) as Hset.
    rewrite !weight_phase in Hset. simpl in Hset. lia.
  - pose proof (in_progress_set _ _ _ (mkTask Queued (task_force t)) Hi) as Hset.
    rewrite !weight_phase, Hph in Hset. simpl in Hset. lia.
  - pose proof (in_progress_set _ _ _ (mkTask Probing (task_force t)) Hi) as Hset.
    rewrite !weight_phase, Hph in Hset. simpl in Hset. lia.
  - pose proof (in_progress_set _ _ _ (mkTask Idle false) Hi) as Hset.
    rewrite !weight_phase, Hph in Hset. simpl in Hset. lia.
Qed.

Lemma boot_balanced nproc forced :
  balanced (semaphore_count nproc) (boot nproc forced).
Proof.
  unfold balanced, in_progress, boot. simpl.
  assert (List.filter probing ((λ f, mkTask Idle f) <$> forced) = []) as ->;
    [| done].
  induction forced as [| f forced IH]; [done | exact IH].
Qed.

Lemma reachable_balanced capacity s0 s :
  rtc step s0 s → balanced capacity s0 → balanced capacity s.
Proof.
  induction 1 as [s | s0 s1 s Hstep _ IH]; [done |].
  intros H0. apply IH. by eapply step_balanced.
Qed.

(** C9.  However many plugins there are and however many of them are
    forced, and in whatever order their run loops and the manager take
    their steps, the probes in progress and the units left in the one
    semaphore add up to the processor count plus two; so no more than that
    many probes are ever in progress. *)
Theorem C9_probes_bounded (nproc : nat) (forced : list bool) (s : system) :
  rtc step (boot nproc forced) s →
  (in_progress s ≤ nproc + 2)%nat
  ∧ (in_progress s + semaphore s = nproc + 2)%nat.
Proof.
  intros Hreach.
  pose proof (reachable_balanced _ _ _ Hreach (boot_balanced nproc forced))
    as Hb.
  unfold balanced, semaphore_count in Hb. lia.
Qed.

Lemma crowded_reachable :
  rtc step (boot 1 [false; false; false; false]) crowded.
Proof.
  eapply rtc_l; [by eapply (step_ready _ 0) |].
  eapply rtc_l; [by eapply (step_acquire _ 0) |].
  eapply rtc_l; [by eapply (step_ready _ 1) |].
  eapply rtc_l; [by eapply (step_acquire _ 1) |].
  eapply rtc_l; [by eapply (step_force _ 2) |].
  eapply rtc_l; [by eapply (step_ready _ 2) |].
  eapply rtc_l; [by eapply (step_acquire _ 2) |].
  eapply rtc_l; [by eapply (step_force _ 3) |].
  eapply rtc_l; [by eapply (step_ready _ 3) |].
  apply rtc_refl.
Qed.

Lemma C9_probes_bounded_witness :
  (in_progress crowded ≤ 1 + 2)%nat
  ∧ (in_progress crowded + semaphore crowded = 1 + 2)%nat.
Proof.
  apply (C9_probes_bounded 1 [false; false; false; false] crowded).
  exact crowded_reachable.
Defined.

(** With the semaphore used up, the waiting plugin cannot start its probe:
    no step from [crowded] takes a unit. *)
Lemma crowded_blocks s' :
  step crowded s' → (in_progress s' ≤ 3)%nat ∧ (semaphore s' ≤ 1)%nat.
Proof.
  intros H.
  pose proof (step_balanced 3 _ _ H eq_refl) as Hb.
  unfold balanced in Hb.
  split; [lia |].
  inversion H as [s i t Hi | s i t Hi Hph | s i t n Hi Hph Hsem | s i t Hi Hph];
    subst; simpl in *; try lia; discriminate.
Qed.

End GateFacts.

(** * Further properties of the manager *)

(** ** Indexing the ledger *)

(** X2.  [get_process] raises IndexError exactly for an index outside
    [-len, len), where [len] is the length of the ledger; inside, an index
    that is not negative gives the entry at that position and a negative
    one the entry [len] positions further. *)
Theorem get_process_bounds (cls : Shared) (id : Z) :
  let len := Z.of_nat (length (processes cls)) in
  (get_process cls id = Raise IndexError ↔ (id < - len ∨ len ≤ id)%Z)
  ∧ ((0 ≤ id < len)%Z →
     ∃ entry, processes cls !! Z.to_nat id = Some entry
              ∧ get_process cls id = Ok entry)
  ∧ ((- len ≤ id < 0)%Z →
     ∃ entry, processes cls !! Z.to_nat (id + len) = Some entry
              ∧ get_process cls id = Ok entry).
Proof.
  intros len.
  assert (Hin : ∀ i, (0 ≤ i < len)%Z →
            ∃ entry, processes cls !! Z.to_nat i = Some entry
                     ∧ get_process cls i = Ok entry).
  { intros i Hi.
    destruct (lookup_lt_is_Some_2 (processes cls) (Z.to_nat i)) as [entry He];
      [subst len; lia |].
    exists entry. split; [done |]. rewrite get_process_nonneg by lia.
    by rewrite He. }
  assert (Hneg : (- len ≤ id < 0)%Z →
            ∃ entry, processes cls !! Z.to_nat (id + len) = Some entry
                     ∧ get_process cls id = Ok entry).
  { intros Hid. destruct (Hin (id + len)%Z) as (entry & He & Hg); [lia |].
    exists entry. split; [done |].
    by rewrite get_process_negative by (subst len; lia). }
  split; [| split; [apply Hin | exact Hneg]].
  split.
  - intros Hraise.
    destruct (decide (id < - len ∨ len ≤ id)%Z) as [| Hn]; [done |].
    destruct (decide (id < 0)%Z).
    + destruct Hneg as (entry & _ & Hg); [lia | congruence].
    + destruct (Hin id) as (entry & _ & Hg); [lia | congruence].
  - intros [Hlow | Hhigh].
    + unfold get_process. fold len.
      rewrite (bool_decide_eq_true_2 (id < 0)%Z) by lia.
      by rewrite bool_decide_eq_false_2 by lia.
    + rewrite get_process_nonneg by lia.
      rewrite lookup_ge_None_2; [done | subst len; lia].
Qed.

Lemma get_process_bounds_witness :
  (∃ entry, processes Sample.forced_once !! Z.to_nat 1 = Some entry
            ∧ get_process Sample.forced_once 1 = Ok entry)
  ∧ (∃ entry, processes Sample.forced_once !! Z.to_nat (-1 + 2) = Some entry
              ∧ get_process Sample.forced_once (-1) = Ok entry)
  ∧ get_process Sample.forced_once 2 = Raise IndexError.
Proof.
  assert (Hlen : length (processes Sample.forced_once) = 2%nat)
    by (by vm_compute).
  pose proof (get_process_bounds Sample.forced_once 1) as H1.
  pose proof (get_process_bounds Sample.forced_once (-1)) as H2.
  pose proof (get_process_bounds Sample.forced_once 2) as H3.
  cbv zeta in H1, H2, H3. rewrite Hlen in H1, H2, H3.
  destruct H1 as (_ & Hin & _), H2 as (_ & _ & Hneg), H3 as (Hout & _).
  split; [apply Hin; lia |].
  split; [apply Hneg; lia |].
  apply Hout. right. lia.
Defined.

(** ** Errors of [load_plugin] *)

Lemma load_plugin_Raise Plugin_check self plugin options options' e :
  load_plugin_params self options = (options', Raise e) →
  load_plugin Plugin_check self plugin options = (options', Raise e).
Proof. unfold load_plugin. by intros ->. Qed.

(** The second half of [load_plugin_params], once the template is found. *)
Lemma load_plugin_params_found self options :
  template_found self options →
  ∃ template,
    load_plugin_params self options
    = match options !! "Action" with
      | Some aname =>
          match get_action self aname with
          | Ok action =>
              (<["Action" := action]> options,
               Ok (dict_update template (<["Action" := action]> options)))
          | Raise e => (options, Raise e)
          end
      | None => (options, Ok (dict_update template options))
      end.
Proof.
  unfold template_found, load_plugin_params. intros Hfound.
  destruct (options !! "Template") as [tname |].
  - destruct Hfound as [t ->]. simpl. eexists.
    destruct (options !! "Action") as [aname |]; [| done].
    by destruct (get_action self aname).
  - simpl. eexists.
    destruct (options !! "Action") as [aname |]; [| done].
    by destruct (get_action self aname).
Qed.

(** X3.  [load_plugin] fails before it constructs anything, and leaves the
    options as they were, when the template or the action it has to look up
    is missing: NoTemplatesConfigured or TemplateNotFound for the template,
    whatever the options say about an action, and, once the template is
    found, NoActionsConfigured or ActionNotFound for the action. *)
Theorem load_plugin_lookup_errors
    (Plugin_check : string → dict → option construction_error)
    (self : PluginManager) (plugin : string) (options : dict) :
  (∀ tname, options !! "Template" = Some tname → conf_templates self = None →
     load_plugin Plugin_check self plugin options
     = (options, Raise NoTemplatesConfigured))
  ∧ (∀ tname templates,
       options !! "Template" = Some (VStr tname) →
       conf_templates self = Some templates → templates !! tname = None →
       load_plugin Plugin_check self plugin options
       = (options, Raise TemplateNotFound))
  ∧ (∀ aname, template_found self options →
       options !! "Action" = Some aname → conf_actions self = None →
       load_plugin Plugin_check self plugin options
       = (options, Raise NoActionsConfigured))
  ∧ (∀ aname actions, template_found self options →
       options !! "Action" = Some (VStr aname) →
       conf_actions self = Some actions → actions !! aname = None →
       load_plugin Plugin_check self plugin options
       = (options, Raise ActionNotFound)).
Proof.
  split; [| split; [| split]].
  - intros tname Ht Hc. apply load_plugin_Raise.
    unfold load_plugin_params, get_template. by rewrite Ht, Hc.
  - intros tname templates Ht Hc Hn. apply load_plugin_Raise.
    unfold load_plugin_params, get_template. rewrite Ht, Hc. simpl.
    by rewrite Hn.
  - intros aname Hfound Ha Hc. apply load_plugin_Raise.
    destruct (load_plugin_params_found self options Hfound) as [t ->].
    rewrite Ha. unfold get_action. by rewrite Hc.
  - intros aname actions Hfound Ha Hc Hn. apply load_plugin_Raise.
    destruct (load_plugin_params_found self options Hfound) as [t ->].
    rewrite Ha. unfold get_action. rewrite Hc. simpl. by rewrite Hn.
Qed.

Lemma load_plugin_lookup_errors_witness :
  load_plugin Sample.accept_all Sample.manager "probe"
              {[ "Template" := VStr "U"; "Action" := VStr "ping" ]}
  = ({[ "Template" := VStr "U"; "Action" := VStr "ping" ]},
     Raise TemplateNotFound)
  ∧ load_plugin Sample.accept_all Sample.manager "spare" Sample.switched_off
    = (Sample.switched_off, Raise NoActionsConfigured)
  ∧ load_plugin Sample.accept_all Sample.two_entries "probe"
                {[ "Template" := VStr "T"; "Action" := VStr "pong" ]}
    = ({[ "Template" := VStr "T"; "Action" := VStr "pong" ]},
       Raise ActionNotFound).
Proof.
  split; [| split].
  - by apply (load_plugin_lookup_errors Sample.accept_all Sample.manager "probe"
                {[ "Template" := VStr "U"; "Action" := VStr "ping" ]})
      with (tname := "U") (templates := Sample.templates).
  - by apply (load_plugin_lookup_errors Sample.accept_all Sample.manager "spare"
                Sample.switched_off)
      with (aname := VStr "ping").
  - apply (load_plugin_lookup_errors Sample.accept_all Sample.two_entries "probe"
             {[ "Template" := VStr "T"; "Action" := VStr "pong" ]})
      with (aname := "pong")
           (actions := {[ "ping" := VDict {[ "Command" := VStr "ping -c1" ]} ]});
      [| done | done | done].
    unfold template_found. eexists. by vm_compute.
Defined.

(** X4.  Without a [Template] and an [Action] entry the parameters are the
    options over the BasePlugin template, key by key; and when the
    BasePlugin template cannot be had (no templates, or none of that name)
    they are the options alone: inside [load_plugin] its absence is not an
    error. *)
Theorem load_plugin_base_only (self : PluginManager) (options : dict) :
  options !! "Template" = None →
  options !! "Action" = None →
  (∀ templates base,
     conf_templates self = Some templates →
     templates !! "BasePlugin" = Some base →
     ∃ p, load_plugin_params self options = (options, Ok p)
          ∧ ∀ k, p !! k = match options !! k with
                          | Some v => Some v
                          | None => base !! k
                          end)
  ∧ ((conf_templates self = None
      ∨ ∃ templates, conf_templates self = Some templates
                     ∧ templates !! "BasePlugin" = None) →
     load_plugin_params self options = (options, Ok options)).
Proof.
  intros Ht Ha. split.
  - intros templates base Hc Hb. eexists. split.
    + unfold load_plugin_params.
      rewrite (get_template_Some _ _ _ _ Hc Hb), Ht, Ha. reflexivity.
    + apply dict_update_lookup.
  - intros Hmissing. unfold load_plugin_params. rewrite Ht, Ha.
    destruct (get_template_missing self Hmissing) as [-> | ->]; simpl;
      unfold dict_update; by rewrite (right_id_L ∅ (∪)).
Qed.

Lemma load_plugin_base_only_witness :
  load_plugin_params
    {| conf_plugins := None; conf_actions := None; conf_templates := None;
       stopping := false |}
    {[ "Interval" := VInt 5 ]}
  = ({[ "Interval" := VInt 5 ]}, Ok {[ "Interval" := VInt 5 ]}).
Proof.
  apply (load_plugin_base_only
           {| conf_plugins := None; conf_actions := None;
              conf_templates := None; stopping := false |}
           {[ "Interval" := VInt 5 ]}); [done | done | by left].
Defined.

(** X5.  Resolving an action is not repeatable.  [load_plugin] writes the
    parameters of the action over the name in the options; when these are a
    dictionary, a second [load_plugin] on the options it left looks them up
    as if they were a name and fails with TypeError, a dictionary not being
    hashable. *)
Theorem load_plugin_action_once
    (self : PluginManager) (options : dict) (aname : string)
    (actions : dict) (d : gmap string value) :
  template_found self options →
  options !! "Action" = Some (VStr aname) →
  conf_actions self = Some actions →
  actions !! aname = Some (VDict d) →
  let options' := <["Action" := VDict d]> options in
  (∃ p, load_plugin_params self options = (options', Ok p)
        ∧ p !! "Action" = Some (VDict d))
  ∧ load_plugin_params self options' = (options', Raise TypeError).
Proof.
  intros Hfound Ha Hc Hd options'. split.
  - destruct (load_plugin_params_found self options Hfound) as [t ->].
    rewrite Ha. unfold get_action. rewrite Hc. simpl. rewrite Hd.
    eexists. split; [done |].
    rewrite dict_update_lookup. by rewrite lookup_insert_eq.
  - assert (Hfound' : template_found self options').
    { unfold template_found, options' in *.
      by rewrite lookup_insert_ne. }
    destruct (load_plugin_params_found self options' Hfound') as [t ->].
    unfold options'. rewrite lookup_insert_eq.
    unfold get_action. by rewrite Hc.
Qed.

Lemma load_plugin_action_once_witness :
  let options : dict := {[ "Template" := VStr "T"; "Action" := VStr "ping" ]} in
  let options' : dict :=
    <["Action" := VDict {[ "Command" := VStr "ping -c1" ]}]> options in
  (∃ p, load_plugin_params Sample.two_entries options = (options', Ok p)
        ∧ p !! "Action" = Some (VDict {[ "Command" := VStr "ping -c1" ]}))
  ∧ load_plugin_params Sample.two_entries options' = (options', Raise TypeError).
Proof.
  apply (load_plugin_action_once Sample.two_entries
           {[ "Template" := VStr "T"; "Action" := VStr "ping" ]} "ping"
           {[ "ping" := VDict {[ "Command" := VStr "ping -c1" ]} ]}
           {[ "Command" := VStr "ping -c1" ]});
    [| done | done | done].
  unfold template_found. eexists. by vm_compute.
Defined.

(** ** What a loading pass registers *)

Section MoreLoading.

Variable Plugin_check : string → dict → option construction_error.


(** A loop that ends with an empty registry has changed nothing. *)
Lemma load_entries_none self items cls conf :
  plugins (foldl (load_entry Plugin_check self) (cls, conf) items).1 = ∅ →
  (foldl (load_entry Plugin_check self) (cls, conf) items).1 = cls.
Proof.
  revert cls conf. induction items as [| [plugin options] items IH];
    intros cls conf; [done |].
  change (foldl (load_entry Plugin_check self) (cls, conf)
                ((plugin, options) :: items))
    with (foldl (load_entry Plugin_check self)
                (load_entry Plugin_check self (cls, conf) (plugin, options))
                items).
  pose proof (load_entry_cases Plugin_check self cls conf plugin options)
    as Hcase.
  destruct (load_entry Plugin_check self (cls, conf) (plugin, options))
    as [cls1 conf1]. simpl in Hcase.
  intros Hempty. rewrite (IH cls1 conf1 Hempty).
  destruct Hcase as [[_ [= -> _]] | (_ & _ & [-> | (obj & _ & ->)])];
    [done | done |].
  destruct (load_entries_spec Plugin_check self items
              {| heap := heap cls ++ [obj];
                 plugins := <[plugin := length (heap cls)]> (plugins cls);
                 processes := processes cls |} conf1) as ([_ _ Hreg] & _).
  destruct (Hreg plugin) as [r Hr].
  { simpl. rewrite lookup_insert_eq. by eexists. }
  cbv zeta in Hr. rewrite Hempty, lookup_empty in Hr. discriminate.
Qed.

(** X6.  A constructor call that raises BasePluginTemplateNotFound or
    NoRunningPlugins leaves the class state, the registry, the plugin
    objects and the ledger, as it was; and NoRunningPlugins is only raised
    when the registry was empty before the call as well.  (An
    AttributeError, which the pass raises where it cannot iterate the
    configuration or read an entry's options, is another matter.) *)
Theorem init_failure_changes_nothing
    (cls cls' : Shared) (plugins_conf : option (gmap string dict))
    (actions : option dict) (templates : option (gmap string dict))
    (e : exn) :
  init Plugin_check cls plugins_conf actions templates = (cls', Raise e) →
  e = BasePluginTemplateNotFound ∨ e = NoRunningPlugins →
  cls' = cls ∧ (e = NoRunningPlugins → plugins cls = ∅).
Proof.
  intros Hinit He.
  assert (cls' = (init Plugin_check cls plugins_conf actions templates).1)
    as -> by (by rewrite Hinit).
  assert ((init Plugin_check cls plugins_conf actions templates).2 = Raise e)
    as Hres by (by rewrite Hinit).
  rewrite init_state. apply init_result in Hres. revert Hres.
  set (self := {| conf_plugins := plugins_conf; conf_actions := actions;
                  conf_templates := templates; stopping := false |}).
  destruct (load_plugins_cases Plugin_check cls self)
    as [-> | [[Hnone ->] | (conf & Hconf & ->)]]; simpl.
  - intros [= <-]. split; [done | discriminate].
  - intros [= <-]. by destruct He.
  - case_bool_decide as Hsize; [| discriminate]. intros [= <-].
    apply map_size_empty_iff in Hsize.
    pose proof (load_entries_none self (map_to_list conf) cls conf Hsize)
      as Hsame.
    split; [done |]. intros _. by rewrite <- Hsame.
Qed.



End MoreLoading.

Lemma init_failure_changes_nothing_witness :
  class_body = class_body ∧ (NoRunningPlugins = NoRunningPlugins →
                             plugins class_body = ∅).
Proof.
  apply (init_failure_changes_nothing (λ _ _, Some InvalidParameters)
           class_body class_body (conf_plugins Sample.manager) None
           (conf_templates Sample.manager) NoRunningPlugins);
    [by vm_compute | by right].
Defined.


(** ** An invariant of the class state *)

(** X8.  The class state is well formed as the class body leaves it, and
    constructing a manager and adding a process keep it so, whether they
    succeed or fail: every reference held by the registry or by a process
    of the ledger points to a stored plugin object, no object is registered
    under two names, and index 0 of the ledger holds [None]. *)
Theorem wf_invariant :
  wf class_body
  ∧ (∀ Plugin_check cls plugins_conf actions templates,
       wf cls → wf (init Plugin_check cls plugins_conf actions templates).1)
  ∧ (∀ cls names filter, wf cls → wf (add_process cls names filter).1).
Proof.
  split; [apply class_body_wf |]. split.
  - intros chk cls p a t. apply init_grown.
  - intros cls names filter. apply add_process_wf.
Qed.

Lemma wf_invariant_witness :
  wf (add_process Sample.loaded None (Some {[ "Template" := VStr "T" ]})).1.
Proof.
  destruct wf_invariant as (Hbody & Hinit & Hadd).
  apply Hadd. apply Hinit. exact Hbody.
Defined.

(** ** Adding a process by names *)

Lemma mapM_get_plugin_Forall2 cls (l : list string) (refs : list nat) :
  Forall2 (λ n r, plugins cls !! n = Some r) l refs →
  mapM (get_plugin cls) l = Ok refs.
Proof.
  induction 1 as [| n r l refs Hn _ IH]; [done |].
  assert (get_plugin cls n = Ok r) as Hg by (unfold get_plugin; by rewrite Hn).
  simpl. rewrite Hg. simpl. by rewrite IH.
Qed.

(** X9.  When every given name is registered, and there is at least one,
    [add_process] succeeds; the new process lists the objects of the names
    in the order given, a name given twice twice, followed by the objects
    that match the filter, whether or not they were named already. *)
Theorem add_process_named
    (cls : Shared) (l : list string) (refs : list nat) (filter : option dict) :
  l ≠ [] →
  Forall2 (λ n r, plugins cls !! n = Some r) l refs →
  let matching :=
    match get_plugins cls filter with
    | PluginList m => m
    | PluginDict _ => []
    end in
  let out := add_process cls (Some l) filter in
  out.2 = Ok (Z.of_nat (length (processes cls)))
  ∧ get_process out.1 (Z.of_nat (length (processes cls)))
    = Ok (Some (mkProcess (refs ++ matching))).
Proof.
  intros Hl Hall matching out.
  assert (Hcollect : collect_plugins cls (Some l) filter
                     = Ok (refs ++ matching)).
  { unfold collect_plugins.
    destruct l as [| n ns]; [done |].
    rewrite (mapM_get_plugin_Forall2 _ _ _ Hall). simpl. do 2 f_equal.
    subst matching. destruct filter as [f |]; simpl; [| done].
    unfold get_plugins. simpl.
    by destruct (map_to_list f) as [| [k v] items]. }
  destruct (add_process_cases cls (Some l) filter)
    as [(e & _ & [He | [He _]]) | (l' & Hl' & _ & Hok)].
  - congruence.
  - rewrite Hcollect in He. injection He as He.
    apply app_eq_nil in He as [-> _].
    apply Forall2_nil_inv_r in Hall. done.
  - subst out. rewrite Hok. simpl. split; [done |].
    rewrite Hcollect in Hl'. injection Hl' as <-.
    apply (get_process_last
             {| heap := foldl (λ h r, alter force_run r h) (heap cls)
                              (refs ++ matching);
                plugins := plugins cls; processes := processes cls |}).
Qed.

(** The plugin of the sample, named twice and matched by the filter, is
    listed three times. *)
Lemma add_process_named_witness :
  (add_process Sample.loaded (Some ["probe"; "probe"])
               (Some {[ "b" := VInt 3 ]})).2 = Ok 1
  ∧ get_process (add_process Sample.loaded (Some ["probe"; "probe"])
                             (Some {[ "b" := VInt 3 ]})).1 1
    = Ok (Some (mkProcess [0; 0; 0]%nat)).
Proof.
  assert (Hknown : Forall2 (λ n r, plugins Sample.loaded !! n = Some r)
                           ["probe"; "probe"] [0; 0]%nat)
    by (repeat constructor).
  pose proof (add_process_named Sample.loaded ["probe"; "probe"] [0; 0]%nat
                (Some {[ "b" := VInt 3 ]}) ltac:(done) Hknown) as H.
  vm_compute in H. vm_compute. exact H.
Defined.

(** ** Handles stay good *)

(** X10.  The ledger is only ever appended to: whatever [get_process]
    returns for an index that is not negative, it returns for that index
    after any further [add_process] and after the construction of any
    further manager. *)
Theorem handles_stay_valid (cls : Shared) (id : Z) (entry : option Process) :
  (0 ≤ id)%Z →
  get_process cls id = Ok entry →
  (∀ names filter, get_process (add_process cls names filter).1 id = Ok entry)
  ∧ (∀ Plugin_check plugins_conf actions templates,
       get_process (init Plugin_check cls plugins_conf actions templates).1 id
       = Ok entry).
Proof.
  intros Hid Hget. rewrite get_process_nonneg in Hget by done.
  destruct (processes cls !! Z.to_nat id) as [entry' |] eqn:Hentry;
    [| discriminate].
  injection Hget as ->. split.
  - intros names filter. rewrite get_process_nonneg by done.
    destruct (add_process_cases cls names filter)
      as [(e & -> & _) | (l & _ & _ & ->)]; simpl.
    + by rewrite Hentry.
    + by rewrite (lookup_app_l_Some _ _ _ _ Hentry).
  - intros chk p a t. rewrite get_process_nonneg by done.
    destruct (init_grown chk cls p a t) as [[-> _ _] _].
    by rewrite Hentry.
Qed.

Lemma handles_stay_valid_witness :
  get_process
    (add_process Sample.forced_once None (Some {[ "c" := VInt 5 ]})).1 1
  = Ok (Some (mkProcess [0%nat]))
  ∧ get_process
      (init Sample.accept_all Sample.forced_once None None None).1 1
    = Ok (Some (mkProcess [0%nat])).
Proof.
  destruct (handles_stay_valid Sample.forced_once 1
              (Some (mkProcess [0%nat]))) as [Hadd Hinit];
    [lia | by vm_compute |].
  split; [apply Hadd | apply Hinit].
Defined.

(** ** Starting *)

(** X12.  [start] calls [start()] on the object of every registered name,
    once for each name and on nothing else, and so, in a well-formed class
    state, once on each registered object; [stop] asks the same objects to
    terminate, in the same order. *)
Theorem start_each_once (cls : Shared) :
  (∀ e, e ∈ start cls ↔ ∃ n r, plugins cls !! n = Some r ∧ e = EvStart r)
  ∧ length (start cls) = size (plugins cls)
  ∧ (wf cls → NoDup (start cls))
  ∧ (λ e, match e with EvStart r => EvTerminate r | _ => e end) <$> start cls
    = terminations cls.
Proof.
  unfold start, terminations. split; [| split; [| split]].
  - intros e. rewrite list_elem_of_fmap. split.
    + intros ([n r] & -> & Hin%elem_of_map_to_list). by exists n, r.
    + intros (n & r & Hn & ->). exists (n, r). split; [done |].
      by apply elem_of_map_to_list.
  - by rewrite length_fmap, length_map_to_list.
  - intros [_ Hd _ _]. apply NoDup_fmap_2_strong; [| apply NoDup_map_to_list].
    intros [n1 r1] [n2 r2] H1%elem_of_map_to_list H2%elem_of_map_to_list.
    simpl. intros [= <-]. f_equal. by eapply Hd.
  - rewrite <- list_fmap_compose. by apply list_fmap_ext.
Qed.

Lemma start_each_once_witness : NoDup (start Sample.pair).
Proof.
  apply (start_each_once Sample.pair).
  apply init_grown. apply class_body_wf.
Defined.

(** ** Forcing the same plugins again *)

Lemma ref_matches_forced cls l key value r :
  ref_matches {| heap := foldl (λ h r, alter force_run r h) (heap cls) l;
                 plugins := plugins cls;
                 processes := processes cls ++ [Some (mkProcess l)] |}
              key value r
  = ref_matches cls key value r.
Proof.
  unfold ref_matches. simpl. rewrite force_loop_lookup.
  case_decide; [| done]. by destruct (heap cls !! r).
Qed.

(** Forcing does not change what names and filters select. *)
Lemma collect_plugins_forced cls l names filter :
  collect_plugins {| heap := foldl (λ h r, alter force_run r h) (heap cls) l;
                     plugins := plugins cls;
                     processes := processes cls ++ [Some (mkProcess l)] |}
                  names filter
  = collect_plugins cls names filter.
Proof.
  unfold collect_plugins.
  destruct filter as [f |]; [| done]. simpl. unfold get_plugins. simpl.
  destruct (map_to_list f) as [| [key value] items]; [done |].
  by rewrite (List.filter_ext _ _ (λ r, ref_matches_forced cls l key value r)).
Qed.

Lemma force_loop_twice (h : list Plugin) (l : list nat) :
  foldl (λ h r, alter force_run r h)
        (foldl (λ h r, alter force_run r h) h l) l
  = foldl (λ h r, alter force_run r h) h l.
Proof.
  apply list_eq. intros r. rewrite !force_loop_lookup.
  case_decide; [| done]. by destruct (h !! r).
Qed.

(** X13.  A successful [add_process] can be repeated: the same arguments
    succeed again with the next handle and a record listing the same
    objects, and the plugin objects and the registry are as the first call
    left them. *)
Theorem add_process_again
    (cls cls1 : Shared) (names : option (list string)) (filter : option dict)
    (id : Z) :
  add_process cls names filter = (cls1, Ok id) →
  ∃ cls2 proc,
    add_process cls1 names filter = (cls2, Ok (id + 1)%Z)
    ∧ heap cls2 = heap cls1
    ∧ plugins cls2 = plugins cls1
    ∧ get_process cls2 id = Ok (Some proc)
    ∧ get_process cls2 (id + 1) = Ok (Some proc).
Proof.
  intros Hadd.
  destruct (add_process_cases cls names filter)
    as [(e & He & _) | (l & Hl & Hne & Hok)]; [congruence |].
  rewrite Hok in Hadd. injection Hadd as <- <-.
  set (cls1 := {| heap := foldl (λ h r, alter force_run r h) (heap cls) l;
                  plugins := plugins cls;
                  processes := processes cls ++ [Some (mkProcess l)] |}).
  destruct (add_process_cases cls1 names filter)
    as [(e & _ & [He | [He _]]) | (l' & Hl' & _ & Hok')].
  - unfold cls1 in He. rewrite collect_plugins_forced in He. congruence.
  - unfold cls1 in He. rewrite collect_plugins_forced in He. congruence.
  - unfold cls1 in Hl'. rewrite collect_plugins_forced in Hl'.
    assert (l' = l) as -> by congruence.
    eexists _, (mkProcess l). split; [| split; [| split; [| split]]].
    + rewrite Hok'. do 2 f_equal. simpl. rewrite length_app. simpl. lia.
    + simpl. apply force_loop_twice.
    + done.
    + rewrite get_process_nonneg by lia. simpl.
      rewrite Nat2Z.id, lookup_app_l by (rewrite length_app; simpl; lia).
      by rewrite lookup_app_r, Nat.sub_diag by lia.
    + rewrite get_process_nonneg by lia. simpl.
      replace (Z.to_nat (Z.of_nat (length (processes cls)) + 1))
        with (length (processes cls ++ [Some (mkProcess l)]))
        by (rewrite length_app; simpl; lia).
      by rewrite lookup_app_r, Nat.sub_diag by lia.
Qed.

Lemma add_process_again_witness :
  ∃ cls2 proc,
    add_process Sample.forced_once (Some ["probe"]) None = (cls2, Ok (1 + 1)%Z)
    ∧ heap cls2 = heap Sample.forced_once
    ∧ plugins cls2 = plugins Sample.forced_once
    ∧ get_process cls2 1 = Ok (Some proc)
    ∧ get_process cls2 (1 + 1) = Ok (Some proc).
Proof.
  apply (add_process_again Sample.loaded Sample.forced_once (Some ["probe"])
           None 1).
  by vm_compute.
Defined.

(** ** A constructed manager *)

(** X14.  A constructor call that returns has registered at least one
    plugin, or found one registered: the registry is not empty.  The
    manager it returns is not stopping and keeps the actions and templates
    it was given. *)
Theorem init_success
    (Plugin_check : string → dict → option construction_error)
    (cls cls' : Shared) (plugins_conf : option (gmap string dict))
    (actions : option dict) (templates : option (gmap string dict))
    (self : PluginManager) :
  init Plugin_check cls plugins_conf actions templates = (cls', Ok self) →
  plugins cls' ≠ ∅
  ∧ is_Some plugins_conf
  ∧ (∃ ts, templates = Some ts ∧ is_Some (ts !! "BasePlugin"))
  ∧ stopping self = false
  ∧ conf_actions self = actions
  ∧ conf_templates self = templates.
Proof.
  unfold init, load_plugins. simpl.
  unfold get_template. simpl.
  destruct templates as [ts |]; [| discriminate]. simpl.
  destruct (ts !! "BasePlugin") as [base |] eqn:Hb; [| discriminate].
  destruct plugins_conf as [conf |]; [| discriminate].
  destruct (foldl _ _ _) as [cls1 conf1]. simpl.
  case_bool_decide as Hsize; [discriminate |]. intros [= <- <-]. simpl.
  split; [by rewrite <- map_size_empty_iff |].
  split; [by eexists |]. split; [| done].
  exists ts. split; [done |]. rewrite Hb. by eexists.
Qed.

Lemma init_success_witness :
  plugins Sample.loaded ≠ ∅
  ∧ is_Some (conf_plugins Sample.manager)
  ∧ (∃ ts, conf_templates Sample.manager = Some ts
           ∧ is_Some (ts !! "BasePlugin"))
  ∧ stopping Sample.manager = false
  ∧ conf_actions Sample.manager = conf_actions Sample.manager
  ∧ conf_templates Sample.manager = conf_templates Sample.manager.
Proof.
  apply (init_success Sample.accept_all class_body Sample.loaded
           (conf_plugins Sample.manager) (conf_actions Sample.manager)
           (conf_templates Sample.manager) Sample.manager).
  by vm_compute.
Defined.

(** ** How long [stop] waits *)

Lemma rounds_spec_sleeps is_alive cls prev poll n :
  length (List.filter is_sleep (rounds_spec is_alive cls prev poll n)) = n.
Proof.
  revert prev poll. induction n as [| n IH]; intros prev poll; [done |].
  simpl. rewrite List.filter_app, length_app. simpl. rewrite IH.
  by case_bool_decide.
Qed.

Lemma terminations_no_sleep cls :
  List.filter is_sleep (terminations cls) = [].
Proof.
  unfold terminations. by induction (map_to_list (plugins cls)).
Qed.

(** X15.  A blocking [stop] that returns has slept once for every round
    in which some plugin was still alive, and not once more: the number of
    its sleeps is the number of the first round in which every registered
    plugin answers that it is not alive.  With nothing registered it
    returns without a round. *)
Theorem stop_sleeps
    (is_alive : nat → nat → bool) (cls : Shared) (self : PluginManager)
    (fuel : nat) (evs : list event) :
  (stop is_alive cls self true fuel).2 = Some evs →
  all_stopped is_alive cls (length (List.filter is_sleep evs))
  ∧ (∀ i, (i < length (List.filter is_sleep evs))%nat →
          ¬ all_stopped is_alive cls i)
  ∧ (plugins cls = ∅ → evs = []).
Proof.
  rewrite stop_blocking. intros (rest & Hrest & [= <-])%bind_Some.
  rewrite List.filter_app, terminations_no_sleep. simpl.
  destruct (map_to_list (plugins cls)) as [| [x r] items] eqn:Hitems.
  - apply map_to_list_empty_iff in Hitems.
    rewrite wait_plugins_nil in Hrest. injection Hrest as <-. simpl.
    split; [| split; [lia |]].
    + intros n r. by rewrite Hitems, lookup_empty.
    + intros _. unfold terminations.
      by rewrite Hitems, map_to_list_empty.
  - apply wait_plugins_Some in Hrest as (n & _ & Hstop & Hbefore & ->).
    rewrite rounds_spec_sleeps. split; [done |]. split; [done |].
    intros Hempty. apply map_to_list_empty_iff in Hempty. congruence.
Qed.

Lemma stop_sleeps_witness :
  all_stopped Sample.winding_down Sample.pair 2
  ∧ (∀ i, (i < 2)%nat → ¬ all_stopped Sample.winding_down Sample.pair i).
Proof.
  destruct (stop_sleeps Sample.winding_down Sample.pair Sample.manager 3
              [EvTerminate 0; EvTerminate 1; EvSleep (1 # 2);
               EvInfo 1 ["extra"]; EvSleep (1 # 2)])
    as (Hstop & Hbefore & _); [by vm_compute |].
  split; [exact Hstop | exact Hbefore].
Defined.
